(** * terait-backend: the REST facade over the realtime store, and its bearer-token gate

    The repository holds three Express programs:
    - [part_000]: src/unnamed/part_000 (save, load, login, register,
      employees, attendance);
    - [index_api]: the second program of src/terait-backend/api/index.js
      (lines 55-334: login, register, employees, attendance);
    - the first program of the same file (lines 1-54: save and load only),
      whose save route is [post_save_minimal].

    The routes are embedded as functions over JavaScript values, each from
    its handler; where the two full programs differ (three expressions: the
    token, the user id, the date key) the function takes the program and
    branches there.  The load routes of part_000 are [get_load], that of the
    first program [get_load_minimal].  Of the start-up code, the service
    account and the allowed origins of config.js are embedded; the health
    routes and the error middleware are not.

    What the programs call is modelled as follows.
    - Values: JSON values and [undefined]; an object is the list of its
      properties in order, the first binding of a key being the property.
      Numbers are integers, printed digit by digit (as JavaScript prints
      those a double holds exactly, below 10^21).
    - The store (firebase-admin): a tree of values addressed by
      slash-separated paths.  The checks of the client are written out: a
      path or a key with one of [. # $ [ ]] or a control character in it is
      refused, and so are [undefined] in a written value, a query for an
      object, an update that is no object, and an update with two keys of
      which one leads to or through the other.  What is written is kept
      without its [null]s, empty objects and empty arrays; a key of an
      update is a path.  The text of the client's errors is an input
      ([refusal]).  Left out: the limits on the length of a key and the
      depth of a path; priorities and server values, whose keys start with a
      dot and are refused here; the order of children, which stay in the
      order they were first written (the store lists them by key); the
      reading of an object keyed by array indices as an array; the pruning
      of a node left without children.  [plain_key] and [plain_data] single
      out keys and values that none of this touches.
    - The token library (jsonwebtoken): the signature scheme is an interface,
      [Codec], with its laws; the library's own guards (a token that is no
      string, a secret that is not set, expiry) are written out over it.
    - The clock and the key generator are inputs ([environment]); a date is
      its UTC calendar fields, years 0 to 9999. *)

From stdpp Require Import base option list strings countable pretty.
From Stdlib Require Import ZArith Lia Ascii.

Local Open Scope string_scope.
Local Open Scope Z_scope.

(** ** JavaScript values *)

Unset Elimination Schemes.
Inductive value : Type :=
| VUndef
| VNull
| VBool (b : bool)
| VNum (n : Z)
| VStr (s : string)
| VArr (items : list value)
| VObj (props : list (string * value)).
Set Elimination Schemes.

(** A completion: a normal result, or a thrown error with its message. *)
Inductive completion (A : Type) : Type :=
| Normal (a : A)
| Throw (message : string).
Arguments Normal {A} a.
Arguments Throw {A} message.

(** [!v] is [negb (truthy v)]. *)
Definition truthy (v : value) : bool :=
  match v with
  | VUndef | VNull => false
  | VBool b => b
  | VNum n => negb (n =? 0)
  | VStr s => negb (String.eqb s "")
  | VArr _ | VObj _ => true
  end.

(** [a || b] *)
Definition or_else (a b : value) : value := if truthy a then a else b.

(** Template literals and property keys go through ToString; an array joins
    its items with a comma, [null] and [undefined] items as the empty string. *)
Fixpoint ToString (v : value) : string :=
  match v with
  | VUndef => "undefined"
  | VNull => "null"
  | VBool true => "true"
  | VBool false => "false"
  | VNum n => pretty n
  | VStr s => s
  | VArr items =>
      String.concat ","
        (List.map (fun x => match x with VUndef | VNull => "" | _ => ToString x end) items)
  | VObj _ => "[object Object]"
  end.

(** [a === b]: by value on primitives; an array or an object equals only
    itself, and the two sides compared by the handlers never are one object. *)
Definition strict_equal (a b : value) : bool :=
  match a, b with
  | VUndef, VUndef | VNull, VNull => true
  | VBool x, VBool y => Bool.eqb x y
  | VNum x, VNum y => x =? y
  | VStr x, VStr y => String.eqb x y
  | _, _ => false
  end.

(** The first binding of a key is the property's value. *)
Fixpoint lookup_prop (k : string) (props : list (string * value)) : option value :=
  match props with
  | [] => None
  | (k', v) :: rest => if String.eqb k k' then Some v else lookup_prop k rest
  end.

(** Assignment to a property: in place when the key exists, appended otherwise. *)
Fixpoint set_prop (k : string) (v : value) (props : list (string * value))
  : list (string * value) :=
  match props with
  | [] => [(k, v)]
  | (k', v') :: rest =>
      if String.eqb k k' then (k, v) :: rest else (k', v') :: set_prop k v rest
  end.

Definition delete_prop (k : string) (props : list (string * value))
  : list (string * value) :=
  List.filter (fun kv => negb (String.eqb k (fst kv))) props.

Fixpoint chars_from (i : nat) (s : string) : list (string * value) :=
  match s with
  | EmptyString => []
  | String c rest => (pretty i, VStr (String c EmptyString)) :: chars_from (S i) rest
  end.

Fixpoint items_from (i : nat) (l : list value) : list (string * value) :=
  match l with
  | [] => []
  | x :: rest => (pretty i, x) :: items_from (S i) rest
  end.

(** Own enumerable properties, as object spread and Object.keys see them. *)
Definition own_props (v : value) : list (string * value) :=
  match v with
  | VObj props => props
  | VArr items => items_from 0 items
  | VStr s => chars_from 0 s
  | _ => []
  end.

(** [o[k]] for a string key [k]: a TypeError on [undefined] and [null]. *)
Definition member (o : value) (k : string) : completion value :=
  match o with
  | VUndef => Throw ("Cannot read properties of undefined (reading '" +:+ k +:+ "')")
  | VNull => Throw ("Cannot read properties of null (reading '" +:+ k +:+ "')")
  | _ => Normal (default VUndef (lookup_prop k (own_props o)))
  end.

(** [o[key]] for any key: the key goes through ToString first. *)
Definition member_computed (o key : value) : completion value :=
  member o (ToString key).

(** [arr[i]] on an array of the program's own making. *)
Definition item (i : nat) (items : list value) : value := nth i items VUndef.

Definition Object_keys (v : value) : list value :=
  List.map (fun kv => VStr (fst kv)) (own_props v).

(** [Object.values(v)] *)
Definition Object_values (v : value) : list value := List.map snd (own_props v).

(** [{...target, ...source}]: each property of [source] assigned in turn. *)
Definition spread (target source : list (string * value)) : list (string * value) :=
  fold_left (fun acc kv => set_prop (fst kv) (snd kv) acc) source target.

(** [s.split(sep)] for a one-character separator. *)
Fixpoint split (sep : ascii) (s : string) : list string :=
  match s with
  | EmptyString => [EmptyString]
  | String c rest =>
      if Ascii.eqb c sep then EmptyString :: split sep rest
      else match split sep rest with
           | piece :: pieces => String c piece :: pieces
           | [] => [String c EmptyString]
           end
  end.

Definition split_value (sep : ascii) (s : string) : list value :=
  List.map VStr (split sep s).

(** ** The store

    A reference is the list of the non-empty segments of its path.  A
    snapshot is the node at the reference, if any. *)

Definition path_segments (path : string) : list string :=
  List.filter (fun seg => negb (String.eqb seg "")) (split "/"%char path).

Fixpoint lookup_at (p : list string) (node : value) : option value :=
  match p with
  | [] => Some node
  | k :: rest =>
      match node with
      | VObj props =>
          match lookup_prop k props with
          | Some child => lookup_at rest child
          | None => None
          end
      | _ => None
      end
  end.

Definition props_of (node : value) : list (string * value) :=
  match node with VObj props => props | _ => [] end.

(** [o.k] where [o] is an object. *)
Definition field (o : value) (k : string) : value :=
  default VUndef (lookup_prop k (props_of o)).

(** Writing below a node that is absent or not an object makes it an object. *)
Fixpoint set_at (p : list string) (v : value) (node : value) : value :=
  match p with
  | [] => v
  | k :: rest =>
      let props := props_of node in
      VObj (set_prop k (set_at rest v (default VNull (lookup_prop k props))) props)
  end.

(** Removing what is absent changes nothing. *)
Fixpoint remove_at (p : list string) (node : value) : value :=
  match p with
  | [] => VNull
  | [k] =>
      match node with
      | VObj props => VObj (delete_prop k props)
      | _ => node
      end
  | k :: rest =>
      match node with
      | VObj props =>
          match lookup_prop k props with
          | Some child => VObj (set_prop k (remove_at rest child) props)
          | None => node
          end
      | _ => node
      end
  end.

Fixpoint has_undefined (v : value) : bool :=
  match v with
  | VUndef => true
  | VArr items => existsb has_undefined items
  | VObj props => existsb (fun kv => has_undefined (snd kv)) props
  | _ => false
  end.

(** What the client accepts in a path: any character but [. # $ [ ]] and the
    control characters; in a key, the slash is refused as well. *)
Definition path_char (c : ascii) : bool :=
  negb (Nat.ltb (nat_of_ascii c) 32) && negb (Nat.eqb (nat_of_ascii c) 127)
  && negb (Ascii.eqb c "." || Ascii.eqb c "#" || Ascii.eqb c "$"
           || Ascii.eqb c "[" || Ascii.eqb c "]").

Fixpoint all_chars (f : ascii -> bool) (s : string) : bool :=
  match s with
  | EmptyString => true
  | String c rest => f c && all_chars f rest
  end.

Definition valid_path (s : string) : bool :=
  negb (String.eqb s "") && all_chars path_char s.

Definition valid_key (k : string) : bool :=
  negb (String.eqb k "") && all_chars (fun c => path_char c && negb (Ascii.eqb c "/")) k.

(** [db.ref(path)]: the path is a string the client accepts; without one, the
    root.  The text of the client's errors is not known here: [refused] gives
    the message for the argument it refuses. *)
Definition ref (refused : value -> string) (path : value) : completion (list string) :=
  match path with
  | VUndef => Normal []
  | VStr s => if valid_path s then Normal (path_segments s) else Throw (refused path)
  | _ => Throw (refused path)
  end.

(** [ref.once('value')] *)
Definition once_value (r : list string) (db : value) : option value := lookup_at r db.

(** [snapshot.exists()] and [snapshot.val()] *)
Definition snapshot_exists (s : option value) : bool :=
  match s with Some _ => true | None => false end.
Definition snapshot_val (s : option value) : value := default VNull s.

(** Whether every key inside [v] is one the client accepts. *)
Fixpoint keys_ok (v : value) : bool :=
  match v with
  | VArr items => forallb keys_ok items
  | VObj props => forallb (fun kv => valid_key (fst kv) && keys_ok (snd kv)) props
  | _ => true
  end.

(** What is kept of an array whose items were kept or not: nothing when no
    item was; the array, trailing gaps cut and the other gaps [null], when
    the items are at least half of its length; an object keyed by the
    indices otherwise. *)
Fixpoint cut_trailing (items : list (option value)) : list (option value) :=
  match items with
  | [] => []
  | x :: rest =>
      match x, cut_trailing rest with
      | None, [] => []
      | _, rest' => x :: rest'
      end
  end.

Fixpoint indexed_from (i : nat) (items : list (option value)) : list (string * value) :=
  match items with
  | [] => []
  | Some x :: rest => (pretty i, x) :: indexed_from (S i) rest
  | None :: rest => indexed_from (S i) rest
  end.

Definition kept_array (items : list (option value)) : option value :=
  let items' := cut_trailing items in
  let present := indexed_from 0 items' in
  match present with
  | [] => None
  | _ =>
      if Nat.leb (length items') (2 * length present)
      then Some (VArr (List.map (default VNull) items'))
      else Some (VObj present)
  end.

(** What the store keeps of a value: [null], an empty object and an empty
    array are nothing, at any depth. *)
Fixpoint normalize (v : value) : option value :=
  match v with
  | VUndef | VNull => None
  | VArr items => kept_array (List.map normalize items)
  | VObj props =>
      match List.flat_map
              (fun kv => match normalize (snd kv) with
                         | Some x => [(fst kv, x)]
                         | None => []
                         end) props with
      | [] => None
      | kept => Some (VObj kept)
      end
  | _ => Some v
  end.

(** Writing what is kept of [v] at [p]; removing what is there when nothing
    is kept. *)
Definition put_at (p : list string) (v : value) (db : value) : value :=
  match normalize v with
  | Some kept => set_at p kept db
  | None => remove_at p db
  end.

(** A plain key: one the client accepts, of 256 bytes at most, with a
    character that is neither a digit nor a dash (so it is no array index). *)
Definition digit_or_dash (c : ascii) : bool :=
  Ascii.eqb c "-" || Nat.leb 48 (nat_of_ascii c) && Nat.leb (nat_of_ascii c) 57.

Definition plain_key (k : string) : bool :=
  valid_key k && Nat.leb (String.length k) 256 && negb (all_chars digit_or_dash k).





(** [ref.set(v)]: [undefined] anywhere in [v], and a key the client does not
    accept, are refused. *)
Definition ref_set (refused : value -> string) (r : list string) (v : value) (db : value)
  : completion value :=
  if has_undefined v || negb (keys_ok v) then Throw (refused v)
  else Normal (put_at r v db).

Fixpoint is_prefix (p q : list string) : bool :=
  match p, q with
  | [], _ => true
  | _ :: _, [] => false
  | a :: p', b :: q' => String.eqb a b && is_prefix p' q'
  end.

(** Whether one path of the list is another's ancestor, or the same path. *)
Fixpoint conflicts (paths : list (list string)) : bool :=
  match paths with
  | [] => false
  | p :: rest => existsb (fun q => is_prefix p q || is_prefix q p) rest || conflicts rest
  end.

Definition set_child (r : list string) (kv : string * value) (db : value) : value :=
  put_at (r ++ path_segments (fst kv)) (snd kv) db.

(** [ref.update(values)]: each key of [values] is a path below the
    reference, and its value is written there; the other children stay.  An
    array stands for the object of its indices.  Refused: what is no object,
    [undefined] and unacceptable keys inside a value, a key that is no
    acceptable path, and two keys of which one leads to or through the
    other. *)
Definition ref_update (refused : value -> string) (r : list string) (values : value)
  (db : value) : completion value :=
  match values with
  | VObj _ | VArr _ =>
      let props := own_props values in
      if has_undefined values
         || negb (forallb (fun kv => valid_path (fst kv) && keys_ok (snd kv)) props)
         || conflicts (List.map (fun kv => path_segments (fst kv)) props)
      then Throw (refused values)
      else Normal (fold_right (set_child r) db props)
  | _ => Throw (refused values)
  end.

(** [ref.remove()] *)
Definition ref_remove (r : list string) (db : value) : value := remove_at r db.

(** [ref.push()]: the child under a key of the store's making. *)
Definition ref_push (r : list string) (key : string) : list string := r ++ [key].

(** The children of the node at [r], in the store's order. *)
Definition children (r : list string) (db : value) : list (string * value) :=
  props_of (snapshot_val (lookup_at r db)).

Definition child_matches (field : string) (v : value) (kv : string * value) : bool :=
  match lookup_prop field (props_of (snd kv)) with
  | Some leaf => strict_equal leaf v
  | None => false
  end.

Definition matching (field : string) (v : value) (r : list string) (db : value)
  : list (string * value) :=
  List.filter (child_matches field v) (children r db).

(** [ref.orderByChild(field).equalTo(v).once('value')]: the children whose
    [field] is the primitive [v]; an object is refused as [v]. *)
Definition equalTo_once (refused : value -> string) (r : list string) (field : string)
  (v : value) (db : value) : completion (option value) :=
  match v with
  | VArr _ | VObj _ => Throw (refused v)
  | _ =>
      match matching field v r db with
      | [] => Normal None
      | found => Normal (Some (VObj found))
      end
  end.

(** ** The token library (jsonwebtoken)

    The signature scheme is an interface: a token encodes a claims object
    under a secret, decoding under that secret gives the claims back, and
    under another secret gives nothing.  A token is a non-empty word without
    spaces (base64url segments joined by dots). *)

Fixpoint has_char (c : ascii) (s : string) : bool :=
  match s with
  | EmptyString => false
  | String c' rest => Ascii.eqb c' c || has_char c rest
  end.

Class Codec : Type := {
  encode_token : list (string * value) -> string -> string;
  decode_token : string -> string -> option (list (string * value));
  decode_encode_token : forall claims secret,
    decode_token (encode_token claims secret) secret = Some claims;
  decode_other_secret : forall claims secret secret',
    secret <> secret' -> decode_token (encode_token claims secret) secret' = None;
  encode_token_no_space : forall claims secret,
    has_char " " (encode_token claims secret) = false;
  encode_token_nonempty : forall claims secret, encode_token claims secret <> "";
}.

(** [expiresIn: '24h'], in seconds *)
Definition expiresIn_24h : Z := 86400.

Definition is_defined (kv : string * value) : bool :=
  match snd kv with VUndef => false | _ => true end.

(** [jwt.sign(payload, secret, { expiresIn: '24h' })] at [clock] seconds:
    the payload's defined properties, then [iat] and [exp].  A secret that is
    not set (the empty string stands for it) is refused. *)
Definition jwt_sign `{Codec} (payload : value) (secret : string) (clock : Z)
  : completion string :=
  if String.eqb secret "" then Throw "secretOrPrivateKey must have a value"
  else match payload with
       | VObj props =>
           Normal (encode_token
                     (List.filter is_defined props ++
                      [("iat", VNum clock); ("exp", VNum (clock + expiresIn_24h))])
                     secret)
       | _ => Throw "invalid expiresIn option for non-object payload"
       end.

(** [jwt.verify(token, secret)] at [clock] seconds: the token is a non-empty
    string, the secret is set, the signature is the secret's, and the token
    has not expired. *)
Definition jwt_verify `{Codec} (token : value) (secret : string) (clock : Z)
  : completion value :=
  if negb (truthy token) then Throw "jwt must be provided"
  else match token with
       | VStr t =>
           if String.eqb secret "" then Throw "secret or public key must be provided"
           else match decode_token t secret with
                | None => Throw "invalid signature"
                | Some claims =>
                    match lookup_prop "exp" claims with
                    | Some (VNum exp) =>
                        if exp <=? clock then Throw "jwt expired" else Normal (VObj claims)
                    | _ => Normal (VObj claims)
                    end
                end
       | _ => Throw "jwt must be a string"
       end.

(** The claims of a token signed for [{ userId, email, role }] at [issued]. *)
Definition issued_claims (userId email role : value) (issued : Z)
  : list (string * value) :=
  (List.filter is_defined [("userId", userId); ("email", email); ("role", role)] ++
   [("iat", VNum issued); ("exp", VNum (issued + expiresIn_24h))])%list.

(** ** The clock *)

Record Date : Type := {
  year : nat; month : nat; day : nat;
  hours : nat; minutes : nat; seconds : nat; milliseconds : nat;
}.

Definition digit (n : nat) : ascii := ascii_of_nat (48 + n mod 10).

Definition pad2 (n : nat) : string :=
  String (digit (n / 10)) (String (digit n) EmptyString).
Definition pad3 (n : nat) : string := String (digit (n / 100)) (pad2 n).
Definition pad4 (n : nat) : string := String (digit (n / 1000)) (pad3 n).

(** The calendar date, [YYYY-MM-DD]. *)
Definition iso_date (d : Date) : string :=
  pad4 (year d) +:+ "-" +:+ pad2 (month d) +:+ "-" +:+ pad2 (day d).

(** The time of day, [HH:mm:ss.sssZ]. *)
Definition iso_time (d : Date) : string :=
  pad2 (hours d) +:+ ":" +:+ pad2 (minutes d) +:+ ":" +:+ pad2 (seconds d)
  +:+ "." +:+ pad3 (milliseconds d) +:+ "Z".

(** [date.toISOString()] *)
Definition toISOString (d : Date) : string := iso_date d +:+ "T" +:+ iso_time d.

(** What a request finds around it: [process.env.JWT_SECRET], the clock in
    seconds (read by the token library) and as a date (read by [new Date()]),
    the key the store hands out on [push()], and the message of the error
    the store's client throws for an argument it refuses. *)
Record environment : Type := {
  JWT_SECRET : string;
  clock : Z;
  now : Date;
  push_key : string;
  refusal : value -> string;
}.

(** ** Requests and responses *)

Record request : Type := {
  authorization : option string;   (* req.headers.authorization *)
  params : value;                  (* req.params *)
  body : value;                    (* req.body *)
  user : value;                    (* req.user *)
}.

Record response : Type := { status : nat; json : value }.

(** [res.json(v)] and [res.status(code).json(v)] *)
Definition res_json (v : value) : response := {| status := 200; json := v |}.
Definition res_status_json (code : nat) (v : value) : response :=
  {| status := code; json := v |}.

(** A handler's body runs against the store: it ends normally or throws, and
    what it wrote before throwing stays written. *)
Definition action (A : Type) : Type := value -> completion A * value.

Definition ret {A : Type} (a : A) : action A := fun db => (Normal a, db).

Definition bind {A B : Type} (m : action A) (k : A -> action B) : action B :=
  fun db =>
    match m db with
    | (Normal a, db') => k a db'
    | (Throw message, db') => (Throw message, db')
    end.

Notation "x <- m ;; k" := (bind m (fun x => k))
  (at level 100, m at next level, right associativity).

(** A pure step that may throw. *)
Definition lift {A : Type} (c : completion A) : action A := fun db => (c, db).

(** A read of the store, and a query that may be refused. *)
Definition read {A : Type} (f : value -> A) : action A := fun db => (Normal (f db), db).
Definition query {A : Type} (f : value -> completion A) : action A := fun db => (f db, db).

(** A write to the store; a refused write leaves it as it was. *)
Definition write (f : value -> completion value) : action unit :=
  fun db =>
    match f db with
    | Normal db' => (Normal tt, db')
    | Throw message => (Throw message, db)
    end.

(** [try { block } catch (error) { handler }] *)
Definition try_catch {A : Type} (block : action A) (handler : string -> A)
  (db : value) : A * value :=
  match block db with
  | (Normal a, db') => (a, db')
  | (Throw message, db') => (handler message, db')
  end.

(** The two full programs. *)
Inductive program : Type :=
| part_000      (* src/unnamed/part_000 *)
| index_api.    (* src/terait-backend/api/index.js, lines 55-334 *)

(** ** The routes *)

Section Routes.
Context `{Codec}.

(** POST /api/save (part_000, lines 37-59) *)
Definition post_save (env : environment) (req : request) : value -> response * value :=
  try_catch
    (path <- lift (member (body req) "path") ;;
     data <- lift (member (body req) "data") ;;
     if negb (truthy path) || negb (truthy data) then
       ret (res_status_json 400 (VObj [("error", VStr "Path and data required")]))
     else
       r <- lift (ref (refusal env) path) ;;
       _ <- write (ref_set (refusal env) (ref_push r (push_key env)) data) ;;
       ret (res_json (VObj [("success", VBool true);
                            ("message", VStr ("Data saved to " +:+ ToString path));
                            ("data", data)])))
    (fun message =>
       res_status_json 500 (VObj [("error", VStr "Failed to save data");
                                  ("details", VStr message)])).

(** [ref.push(value)]: nothing is written for [undefined] or [null]. *)
Definition ref_push_value (refused : value -> string) (r : list string) (key : string)
  (v : value) (db : value) : completion value :=
  match v with
  | VUndef | VNull => Normal db
  | _ => ref_set refused (ref_push r key) v db
  end.

(** POST /api/save (index.js, first program, lines 32-41) *)
Definition post_save_minimal (env : environment) (req : request)
  : value -> response * value :=
  try_catch
    (path <- lift (member (body req) "path") ;;
     data <- lift (member (body req) "data") ;;
     r <- lift (ref (refusal env) path) ;;
     _ <- write (ref_push_value (refusal env) r (push_key env) data) ;;
     ret (res_status_json 201 (VObj [("message", VStr "Saved successfully")])))
    (fun message => res_status_json 500 (VObj [("error", VStr message)])).

(** POST /api/login.  The two programs differ in [userId]:
    [Object.keys(userData)[0]] (part_000, line 150) against
    [Object.keys(userData)] (index.js, line 108). *)
Definition post_login (prog : program) (env : environment) (req : request)
  : value -> response * value :=
  try_catch
    (email <- lift (member (body req) "email") ;;
     password <- lift (member (body req) "password") ;;
     if negb (truthy email) || negb (truthy password) then
       ret (res_status_json 400 (VObj [("error", VStr "Email and password required")]))
     else
       usersRef <- lift (ref (refusal env) (VStr "users")) ;;
       found <- query (equalTo_once (refusal env) usersRef "email" email) ;;
       if negb (snapshot_exists found) then
         ret (res_status_json 401 (VObj [("error", VStr "Invalid credentials")]))
       else
         let userData := snapshot_val found in
         let userId :=
           match prog with
           | part_000 => item 0 (Object_keys userData)
           | index_api => VArr (Object_keys userData)
           end in
         user <- lift (member_computed userData userId) ;;
         user_password <- lift (member user "password") ;;
         if negb (strict_equal user_password password) then
           ret (res_status_json 401 (VObj [("error", VStr "Invalid credentials")]))
         else
           user_email <- lift (member user "email") ;;
           user_role <- lift (member user "role") ;;
           token <- lift (jwt_sign
                            (VObj [("userId", userId); ("email", user_email);
                                   ("role", user_role)])
                            (JWT_SECRET env) (clock env)) ;;
           user_name <- lift (member user "name") ;;
           ret (res_json
                  (VObj [("success", VBool true);
                         ("token", VStr token);
                         ("user", VObj [("id", userId); ("email", user_email);
                                        ("name", user_name); ("role", user_role)])])))
    (fun message =>
       res_status_json 500 (VObj [("error", VStr "Login failed");
                                  ("details", VStr message)])).

(** POST /api/register (the same in both programs) *)
Definition post_register (env : environment) (req : request)
  : value -> response * value :=
  try_catch
    (email <- lift (member (body req) "email") ;;
     password <- lift (member (body req) "password") ;;
     name <- lift (member (body req) "name") ;;
     role <- lift (member (body req) "role") ;;
     if negb (truthy email) || negb (truthy password) || negb (truthy name) then
       ret (res_status_json 400
              (VObj [("error", VStr "Email, password, and name required")]))
     else
       usersRef <- lift (ref (refusal env) (VStr "users")) ;;
       found <- query (equalTo_once (refusal env) usersRef "email" email) ;;
       if snapshot_exists found then
         ret (res_status_json 400 (VObj [("error", VStr "User already exists")]))
       else
         let newUserRef := ref_push usersRef (push_key env) in
         let userId := VStr (push_key env) in
         _ <- write (ref_set (refusal env) newUserRef
                       (VObj [("email", email);
                              ("password", password);
                              ("name", name);
                              ("role", or_else role (VStr "user"));
                              ("createdAt", VStr (toISOString (now env)))])) ;;
         token <- lift (jwt_sign
                          (VObj [("userId", userId); ("email", email);
                                 ("role", or_else role (VStr "user"))])
                          (JWT_SECRET env) (clock env)) ;;
         ret (res_json
                (VObj [("success", VBool true);
                       ("token", VStr token);
                       ("user", VObj [("id", userId); ("email", email); ("name", name);
                                      ("role", or_else role (VStr "user"))])])))
    (fun message =>
       res_status_json 500 (VObj [("error", VStr "Registration failed");
                                  ("details", VStr message)])).

(** What the middleware does with a request: it answers, or it calls [next()]
    on the request with the decoded claims attached. *)
Inductive gate : Type :=
| Answered (res : response)
| Next (req : request).

(** [req.headers.authorization?.split(' ')] *)
Definition authorization_words (req : request) : option (list value) :=
  match authorization req with
  | None => None
  | Some header => Some (split_value " " header)
  end.

(** verifyToken.  The two programs differ in [token]:
    [req.headers.authorization?.split(' ')[1]] (part_000, line 227) against
    [req.headers.authorization?.split(' ')] (index.js, line 188). *)
Definition verifyToken (prog : program) (env : environment) (req : request) : gate :=
  let token :=
    match authorization_words req with
    | None => VUndef
    | Some words =>
        match prog with
        | part_000 => item 1 words
        | index_api => VArr words
        end
    end in
  if negb (truthy token) then
    Answered (res_status_json 401 (VObj [("error", VStr "No token provided")]))
  else
    match jwt_verify token (JWT_SECRET env) (clock env) with
    | Normal decoded =>
        Next {| authorization := authorization req; params := params req;
                body := body req; user := decoded |}
    | Throw _ => Answered (res_status_json 401 (VObj [("error", VStr "Invalid token")]))
    end.

(** [{ id: childSnapshot.key, ...childSnapshot.val() }] *)
Definition with_id (child : string * value) : value :=
  VObj (spread [("id", VStr (fst child))] (own_props (snd child))).

(** [snapshot.forEach(childSnapshot => list.push({ id, ...val }))] *)
Definition children_with_id (s : option value) : value :=
  VArr (List.map with_id (props_of (snapshot_val s))).

(** GET /api/employees *)
Definition get_employees (env : environment) (req : request)
  : value -> response * value :=
  try_catch
    (employeesRef <- lift (ref (refusal env) (VStr "employees")) ;;
     snapshot <- read (once_value employeesRef) ;;
     if negb (snapshot_exists snapshot) then ret (res_json (VArr []))
     else ret (res_json (children_with_id snapshot)))
    (fun _ => res_status_json 500 (VObj [("error", VStr "Failed to fetch employees")])).

(** POST /api/employees *)
Definition post_employees (env : environment) (req : request)
  : value -> response * value :=
  try_catch
    (name <- lift (member (body req) "name") ;;
     email <- lift (member (body req) "email") ;;
     role <- lift (member (body req) "role") ;;
     department <- lift (member (body req) "department") ;;
     employeesRef <- lift (ref (refusal env) (VStr "employees")) ;;
     let newEmployeeRef := ref_push employeesRef (push_key env) in
     _ <- write (ref_set (refusal env) newEmployeeRef
                   (VObj [("name", name);
                          ("email", email);
                          ("role", role);
                          ("department", department);
                          ("createdAt", VStr (toISOString (now env)))])) ;;
     ret (res_json (VObj [("success", VBool true);
                          ("id", VStr (push_key env));
                          ("message", VStr "Employee created")])))
    (fun _ => res_status_json 500 (VObj [("error", VStr "Failed to create employee")])).

(** PUT /api/employees/:id *)
Definition put_employee (env : environment) (req : request)
  : value -> response * value :=
  try_catch
    (id <- lift (member (params req) "id") ;;
     let updateData := body req in
     r <- lift (ref (refusal env) (VStr ("employees/" +:+ ToString id))) ;;
     _ <- write (ref_update (refusal env) r updateData) ;;
     ret (res_json (VObj [("success", VBool true);
                          ("message", VStr "Employee updated")])))
    (fun _ => res_status_json 500 (VObj [("error", VStr "Failed to update employee")])).

(** DELETE /api/employees/:id *)
Definition delete_employee (env : environment) (req : request)
  : value -> response * value :=
  try_catch
    (id <- lift (member (params req) "id") ;;
     r <- lift (ref (refusal env) (VStr ("employees/" +:+ ToString id))) ;;
     _ <- write (fun db => Normal (ref_remove r db)) ;;
     ret (res_json (VObj [("success", VBool true);
                          ("message", VStr "Employee deleted")])))
    (fun _ => res_status_json 500 (VObj [("error", VStr "Failed to delete employee")])).

(** GET /api/attendance/:employeeId *)
Definition get_attendance (env : environment) (req : request)
  : value -> response * value :=
  try_catch
    (employeeId <- lift (member (params req) "employeeId") ;;
     attendanceRef <- lift (ref (refusal env) (VStr ("attendance/" +:+ ToString employeeId))) ;;
     snapshot <- read (once_value attendanceRef) ;;
     if negb (snapshot_exists snapshot) then ret (res_json (VArr []))
     else ret (res_json (children_with_id snapshot)))
    (fun _ => res_status_json 500 (VObj [("error", VStr "Failed to fetch attendance")])).

(** The attendance key.  The two programs differ in [dateKey]:
    [now.toISOString().split('T')[0]] (part_000, line 337) against
    [now.toISOString().split('T')] (index.js, line 308). *)
Definition dateKey (prog : program) (d : Date) : value :=
  match prog with
  | part_000 => item 0 (split_value "T" (toISOString d))
  | index_api => VArr (split_value "T" (toISOString d))
  end.

(** [`attendance/${employeeId}/${dateKey}`] *)
Definition attendance_path (prog : program) (employeeId : value) (d : Date) : string :=
  "attendance/" +:+ ToString employeeId +:+ "/" +:+ ToString (dateKey prog d).

(** POST /api/attendance/login *)
Definition post_attendance_login (prog : program) (env : environment) (req : request)
  : value -> response * value :=
  try_catch
    (employeeId <- lift (member (body req) "employeeId") ;;
     let timeKey := toISOString (now env) in
     r <- lift (ref (refusal env) (VStr (attendance_path prog employeeId (now env)))) ;;
     _ <- write (ref_set (refusal env) r (VObj [("loginTime", VStr timeKey);
                                  ("status", VStr "present")])) ;;
     ret (res_json (VObj [("success", VBool true);
                          ("message", VStr "Login recorded")])))
    (fun _ => res_status_json 500 (VObj [("error", VStr "Failed to log attendance")])).

(** What a successful login answers for the user record [u] found under
    [userId], with the token signed for it. *)
Definition login_response (userId u : value) (token : string) : response :=
  res_json (VObj [("success", VBool true);
                  ("token", VStr token);
                  ("user", VObj [("id", userId); ("email", field u "email");
                                 ("name", field u "name"); ("role", field u "role")])]).

Definition login_token (env : environment) (userId u : value) : string :=
  encode_token (issued_claims userId (field u "email") (field u "role") (clock env))
    (JWT_SECRET env).

(** What the handler answers once the stored password is the supplied one:
    the token is signed, or signing throws and the catch block answers. *)
Definition login_signed (env : environment) (userId u : value) : response :=
  match jwt_sign (VObj [("userId", userId); ("email", field u "email");
                        ("role", field u "role")])
          (JWT_SECRET env) (clock env) with
  | Normal token => login_response userId u token
  | Throw message =>
      res_status_json 500 (VObj [("error", VStr "Login failed"); ("details", VStr message)])
  end.

(** The record a login files. *)
Definition attendance_record (d : Date) : value :=
  VObj [("loginTime", VStr (toISOString d)); ("status", VStr "present")].

(** The routes registered behind [verifyToken]. *)
Inductive protected_route : Type :=
| GET_employees
| POST_employees
| PUT_employees_id
| DELETE_employees_id
| GET_attendance_employeeId
| POST_attendance_login.

Definition handler (prog : program) (route : protected_route)
  : environment -> request -> value -> response * value :=
  match route with
  | GET_employees => get_employees
  | POST_employees => post_employees
  | PUT_employees_id => put_employee
  | DELETE_employees_id => delete_employee
  | GET_attendance_employeeId => get_attendance
  | POST_attendance_login => post_attendance_login prog
  end.

(** [app.METHOD(path, verifyToken, handler)] *)
Definition protected (prog : program) (route : protected_route)
  (env : environment) (req : request) (db : value) : response * value :=
  match verifyToken prog env req with
  | Answered res => (res, db)
  | Next req' => handler prog route env req' db
  end.

End Routes.

(** ** The load routes *)

(** The collections of GET /api/load/<collection> (part_000, lines 62-132). *)
Inductive collection : Type :=
| Employees | Managers | Tickets | Customers | Companies | CallGroups.

Definition collection_path (c : collection) : string :=
  match c with
  | Employees => "employees"
  | Managers => "managers"
  | Tickets => "tickets"
  | Customers => "customers"
  | Companies => "companies"
  | CallGroups => "callGroups"
  end.

Definition collection_error (c : collection) : string :=
  match c with
  | Employees => "Failed to load employees"
  | Managers => "Failed to load managers"
  | Tickets => "Failed to load tickets"
  | Customers => "Failed to load customers"
  | Companies => "Failed to load companies"
  | CallGroups => "Failed to load call groups"
  end.

(** GET /api/load/<collection> (part_000): [data ? Object.values(data) : []] *)
Definition get_load (c : collection) (env : environment) (req : request)
  : value -> response * value :=
  try_catch
    (r <- lift (ref (refusal env) (VStr (collection_path c))) ;;
     snapshot <- read (once_value r) ;;
     let data := snapshot_val snapshot in
     ret (res_json (VArr (if truthy data then Object_values data else []))))
    (fun _ => res_status_json 500 (VObj [("error", VStr (collection_error c))])).

(** GET /api/load/:path (index.js, first program, lines 44-51):
    [snapshot.val() || []] *)
Definition get_load_minimal (env : environment) (req : request)
  : value -> response * value :=
  try_catch
    (path <- lift (member (params req) "path") ;;
     r <- lift (ref (refusal env) path) ;;
     snapshot <- read (once_value r) ;;
     ret (res_json (or_else (snapshot_val snapshot) (VArr []))))
    (fun message => res_status_json 500 (VObj [("error", VStr message)])).

(** ** What the routes file, and what they write *)

(** The record a registration files. *)
Definition user_record (env : environment) (e p n : string) (role : value) : value :=
  VObj [("email", VStr e); ("password", VStr p); ("name", VStr n);
        ("role", or_else role (VStr "user"));
        ("createdAt", VStr (toISOString (now env)))].


(** An action that leaves the store as it found it, however it ends. *)
Definition reads_only {A : Type} (m : action A) : Prop := forall db, snd (m db) = db.

(** An action that has written only if it ends with an answer of status [code]. *)
Definition writes_with (code : nat) (m : action response) : Prop :=
  forall db,
    match m db with
    | (Normal res, db') => status res = code \/ db' = db
    | (Throw _, db') => db' = db
    end.

(** ** Start-up: the service account and the configuration *)




(** [process.env]: a variable is a string, or is not set. *)
Record process_env : Type := {
  FIREBASE_PROJECT_ID : option string;
  FIREBASE_PRIVATE_KEY : option string;
  FIREBASE_CLIENT_EMAIL : option string;
  CORS_ORIGIN : option string;
}.



(** [config.cors.origin]: [process.env.CORS_ORIGIN?.split(',') || [...]] *)
Definition cors_origin (e : process_env) : value :=
  or_else
    match CORS_ORIGIN e with
    | Some s => VArr (split_value "," s)
    | None => VUndef
    end
    (VArr [VStr "http://localhost:3000"]).

(** ** An instance of the token interface

    A token that spells out its claims and its secret, bit by bit.  It is
    no signature scheme to deploy; it shows that the laws of [Codec] hold
    together, and it lets the routes be run on concrete requests. *)

Section value_induction.
Variable P : value -> Prop.
Hypothesis Hundef : P VUndef.
Hypothesis Hnull : P VNull.
Hypothesis Hbool : forall b, P (VBool b).
Hypothesis Hnum : forall n, P (VNum n).
Hypothesis Hstr : forall s, P (VStr s).
Hypothesis Harr : forall items, Forall P items -> P (VArr items).
Hypothesis Hobj : forall props, Forall (fun kv => P (snd kv)) props -> P (VObj props).

Fixpoint value_ind (v : value) : P v :=
  match v with
  | VUndef => Hundef
  | VNull => Hnull
  | VBool b => Hbool b
  | VNum n => Hnum n
  | VStr s => Hstr s
  | VArr items =>
      Harr items
        ((fix all (l : list value) : Forall P l :=
            match l with
            | [] => @List.Forall_nil _ _
            | x :: rest => @List.Forall_cons _ _ x rest (value_ind x) (all rest)
            end) items)
  | VObj props =>
      Hobj props
        ((fix all (l : list (string * value)) : Forall (fun kv => P (snd kv)) l :=
            match l with
            | [] => @List.Forall_nil _ _
            | kv :: rest => @List.Forall_cons _ _ kv rest (value_ind (snd kv)) (all rest)
            end) props)
  end.
End value_induction.

Fixpoint value_to_tree (v : value) : gen_tree (bool + (Z + string)) :=
  match v with
  | VUndef => GenNode 0 []
  | VNull => GenNode 1 []
  | VBool b => GenLeaf (inl b)
  | VNum n => GenLeaf (inr (inl n))
  | VStr s => GenLeaf (inr (inr s))
  | VArr items => GenNode 2 (List.map value_to_tree items)
  | VObj props =>
      GenNode 3
        (List.map (fun kv => GenNode 4 [GenLeaf (inr (inr (fst kv))); value_to_tree (snd kv)])
           props)
  end.

Fixpoint tree_to_value (t : gen_tree (bool + (Z + string))) : value :=
  match t with
  | GenLeaf (inl b) => VBool b
  | GenLeaf (inr (inl n)) => VNum n
  | GenLeaf (inr (inr s)) => VStr s
  | GenNode 1 _ => VNull
  | GenNode 2 items => VArr (List.map tree_to_value items)
  | GenNode 3 props =>
      VObj (List.map
              (fun p => match p with
                        | GenNode _ [GenLeaf (inr (inr k)); t'] => (k, tree_to_value t')
                        | _ => (EmptyString, VUndef)
                        end) props)
  | GenNode _ _ => VUndef
  end.

Lemma tree_to_value_to_tree (v : value) : tree_to_value (value_to_tree v) = v.
Proof.
  induction v as [| | b | n | s | items IH | props IH] using value_ind; simpl; try reflexivity.
  - f_equal. induction IH as [| x l Hx _ IHl]; simpl; [reflexivity | now rewrite Hx, IHl].
  - f_equal. induction IH as [| [k x] l Hx _ IHl]; simpl; [reflexivity |].
    simpl in Hx. now rewrite Hx, IHl.
Qed.

#[export] Instance value_eq_dec : EqDecision value.
Proof.
  intros x y. destruct (decide (value_to_tree x = value_to_tree y)) as [e | n].
  - left. rewrite <- (tree_to_value_to_tree x), <- (tree_to_value_to_tree y). now rewrite e.
  - right. intros ->. now apply n.
Defined.

#[export] Instance value_countable : Countable value :=
  inj_countable' value_to_tree tree_to_value tree_to_value_to_tree.

Fixpoint pos_word (p : positive) : string :=
  match p with
  | xH => EmptyString
  | xO q => String "0" (pos_word q)
  | xI q => String "1" (pos_word q)
  end.

Fixpoint word_pos (s : string) : option positive :=
  match s with
  | EmptyString => Some xH
  | String c rest =>
      match word_pos rest with
      | Some q => if Ascii.eqb c "0" then Some (xO q)
                  else if Ascii.eqb c "1" then Some (xI q) else None
      | None => None
      end
  end.

Lemma word_pos_word p : word_pos (pos_word p) = Some p.
Proof. induction p; simpl; try rewrite IHp; reflexivity. Qed.

Lemma pos_word_no_space p : has_char " " (pos_word p) = false.
Proof. induction p; simpl; auto. Qed.

Definition plain_encode (claims : list (string * value)) (secret : string) : string :=
  String "t" (pos_word (encode (claims, secret))).

Definition plain_decode (token secret : string) : option (list (string * value)) :=
  match token with
  | String _ rest =>
      match word_pos rest with
      | Some p =>
          match decode p with
          | Some (claims, secret') =>
              if String.eqb secret' secret then Some claims else None
          | None => None
          end
      | None => None
      end
  | EmptyString => None
  end.

#[export] Program Instance plain_codec : Codec :=
  {| encode_token := plain_encode; decode_token := plain_decode |}.
Next Obligation.
  intros. unfold plain_decode, plain_encode. rewrite word_pos_word, countable.decode_encode.
  now rewrite String.eqb_refl.
Qed.
Next Obligation.
  intros claims s s' Hne. unfold plain_decode, plain_encode.
  rewrite word_pos_word, countable.decode_encode.
  destruct (String.eqb s s') eqn:E; [apply String.eqb_eq in E; contradiction | reflexivity].
Qed.
Next Obligation. intros. simpl. apply pos_word_no_space. Qed.
Next Obligation. intros. discriminate. Qed.

(** ** The routes at work: concrete requests *)

Definition morning : Date :=
  {| year := 2026; month := 11; day := 3;
     hours := 6; minutes := 42; seconds := 7; milliseconds := 45 |}.

Definition evening : Date :=
  {| year := 2026; month := 11; day := 3;
     hours := 17; minutes := 5; seconds := 0; milliseconds := 0 |}.

Definition env_morning : environment :=
  {| JWT_SECRET := "s3cret"; clock := 1793688127; now := morning; push_key := "-Nk1";
     refusal := fun _ => "refused" |}.

Definition env_evening : environment :=
  {| JWT_SECRET := "s3cret"; clock := 1793725500; now := evening; push_key := "-Nk2";
     refusal := fun _ => "refused" |}.

(** The next morning, to the second. *)
Definition env_next_day : environment :=
  {| JWT_SECRET := "s3cret"; clock := 1793688127 + 86400;
     now := {| year := 2026; month := 11; day := 4;
               hours := 6; minutes := 42; seconds := 7; milliseconds := 45 |};
     push_key := "-Nk3"; refusal := fun _ => "refused" |}.

(** A request with a JSON body, no header and no route parameter. *)
Definition json_request (b : value) : request :=
  {| authorization := None; params := VObj []; body := b; user := VUndef |}.

(** A request to [/api/employees/:id]. *)
Definition employee_request (id : string) (b : value) : request :=
  {| authorization := None; params := VObj [("id", VStr id)]; body := b; user := VUndef |}.

Definition ana : value :=
  VObj [("email", VStr "ana@x.com"); ("password", VStr "pw"); ("name", VStr "Ana");
        ("role", VStr "tech"); ("createdAt", VStr "2026-11-02T09:00:00.000Z")].

(** A store with one user and one employee. *)
Definition one_user : value :=
  VObj [("users", VObj [("-Nj0", ana)]);
        ("employees",
         VObj [("-Ne7", VObj [("name", VStr "Ana"); ("email", VStr "ana@x.com");
                              ("role", VStr "tech"); ("department", VStr "ops");
                              ("createdAt", VStr "2026-11-02T09:05:00.000Z")])])].

Definition credentials (email password : string) : value :=
  VObj [("email", VStr email); ("password", VStr password)].

Definition registration (email password name : string) : value :=
  VObj [("email", VStr email); ("password", VStr password); ("name", VStr name)].

(** Two requests to DELETE /api/employees/-Ne7, one with an admin's token and
    one with a user's. *)
Definition token_with_role (role : string) : string :=
  encode_token
    (issued_claims (VStr "-Nj0") (VStr "ana@x.com") (VStr role) (clock env_morning))
    (JWT_SECRET env_evening).

Definition delete_as (role : string) : request :=
  {| authorization := Some ("Bearer " +:+ token_with_role role);
     params := VObj [("id", VStr "-Ne7")]; body := VObj []; user := VUndef |}.

(** No signing secret in the environment. *)
Definition env_no_secret : environment :=
  {| JWT_SECRET := ""; clock := 1793688127; now := morning; push_key := "-Nk1";
     refusal := fun _ => "refused" |}.

(** A store whose one employee was saved with an [id] of its own. *)
Definition own_id_store : value :=
  VObj [("employees", VObj [("-Ne9", VObj [("id", VNum 7); ("name", VStr "Cy")])])].


(** A request to [/api/attendance/:employeeId], and one to [/api/load/:path]. *)
Definition attendance_request (employeeId : string) : request :=
  {| authorization := None; params := VObj [("employeeId", VStr employeeId)];
     body := VObj []; user := VUndef |}.



(** A request to GET /api/employees with the token a login of [ana] answers. *)
Definition list_as_ana (env : environment) : request :=
  {| authorization := Some ("Bearer " +:+ login_token env (VStr "-Nj0") ana);
     params := VObj []; body := VObj []; user := VUndef |}.

(** Two users under one email, as two saves to [users] leave them. *)
Definition twins : value :=
  VObj [("users", VObj [("-Nj0", ana); ("-Nj9", ana)])].

(** ** Strings: [split] and the words it cuts *)

Lemma has_char_app c a b : has_char c (a +:+ b) = has_char c a || has_char c b.
Proof.
  induction a as [| x a IH]; simpl; [reflexivity |].
  rewrite IH. now rewrite orb_assoc.
Qed.

Lemma split_without c s : has_char c s = false -> split c s = [s].
Proof.
  induction s as [| x s IH]; simpl; [reflexivity |].
  intros Hc. apply orb_false_iff in Hc as [Hx Hs].
  rewrite Hx, (IH Hs). reflexivity.
Qed.

Lemma split_at_first c a b :
  has_char c a = false -> split c (a +:+ String c b) = a :: split c b.
Proof.
  induction a as [| x a IH]; simpl.
  - intros _. now rewrite Ascii.eqb_refl.
  - intros Hc. apply orb_false_iff in Hc as [Hx Ha].
    rewrite Hx, (IH Ha). reflexivity.
Qed.

Lemma split_two c a b :
  has_char c a = false -> has_char c b = false ->
  split c (a +:+ String c b) = [a; b].
Proof. intros Ha Hb. now rewrite split_at_first, (split_without c b). Qed.

Lemma split_cons c s : exists piece pieces, split c s = piece :: pieces.
Proof.
  destruct s as [| x s]; simpl; [now eexists _, _ |].
  destruct (Ascii.eqb x c); [now eexists _, _ |].
  destruct (split c s); now eexists _, _.
Qed.

Lemma split_app_sep c a b : split c (a +:+ String c b) = (split c a ++ split c b)%list.
Proof.
  induction a as [| x a IH]; simpl.
  - now rewrite Ascii.eqb_refl.
  - rewrite IH. destruct (Ascii.eqb x c); [reflexivity |].
    destruct (split_cons c a) as (piece & pieces & ->). reflexivity.
Qed.

Lemma path_segments_app (a b : string) :
  path_segments (a +:+ String "/" b) = (path_segments a ++ path_segments b)%list.
Proof. unfold path_segments. now rewrite split_app_sep, List.filter_app. Qed.

Lemma path_segments_under (name rest : string) :
  path_segments name = [name] ->
  path_segments (name +:+ String "/" rest) = name :: path_segments rest.
Proof. intros Hn. now rewrite path_segments_app, Hn. Qed.

(** ** Dates: the ISO string and its two halves *)

Lemma digit_cases n :
  digit n = "0"%char \/ digit n = "1"%char \/ digit n = "2"%char \/ digit n = "3"%char \/
  digit n = "4"%char \/ digit n = "5"%char \/ digit n = "6"%char \/ digit n = "7"%char \/
  digit n = "8"%char \/ digit n = "9"%char.
Proof.
  unfold digit. pose proof (Nat.mod_upper_bound n 10 ltac:(lia)) as Hlt.
  destruct (n mod 10)%nat as [| [| [| [| [| [| [| [| [| [| k]]]]]]]]]] eqn:E; simpl; auto 10.
  lia.
Qed.

Lemma digit_not c n :
  (Ascii.eqb "0" c || Ascii.eqb "1" c || Ascii.eqb "2" c || Ascii.eqb "3" c ||
   Ascii.eqb "4" c || Ascii.eqb "5" c || Ascii.eqb "6" c || Ascii.eqb "7" c ||
   Ascii.eqb "8" c || Ascii.eqb "9" c = false)%char ->
  Ascii.eqb (digit n) c = false.
Proof.
  intros Hc. repeat (apply orb_false_iff in Hc as [Hc ?]).
  destruct (digit_cases n) as [E | [E | [E | [E | [E | [E | [E | [E | [E | E]]]]]]]]];
    rewrite E; assumption.
Qed.

Lemma iso_date_without_T d : has_char "T" (iso_date d) = false.
Proof.
  unfold iso_date, pad4, pad3, pad2. rewrite !has_char_app. cbn [has_char].
  rewrite !(digit_not "T") by reflexivity. reflexivity.
Qed.

Lemma iso_time_without_T d : has_char "T" (iso_time d) = false.
Proof.
  unfold iso_time, pad3, pad2. rewrite !has_char_app. cbn [has_char].
  rewrite !(digit_not "T") by reflexivity. reflexivity.
Qed.

Lemma split_toISOString d : split "T" (toISOString d) = [iso_date d; iso_time d].
Proof.
  unfold toISOString. change ("T" +:+ iso_time d) with (String "T" (iso_time d)).
  apply split_two; [apply iso_date_without_T | apply iso_time_without_T].
Qed.

Lemma dateKey_part_000 d : dateKey part_000 d = VStr (iso_date d).
Proof. unfold dateKey, split_value. now rewrite split_toISOString. Qed.

Lemma dateKey_index_api d :
  dateKey index_api d = VArr [VStr (iso_date d); VStr (iso_time d)].
Proof. unfold dateKey, split_value. now rewrite split_toISOString. Qed.

(** ** Objects: reading, assigning and deleting properties *)

Lemma lookup_set_prop_same k v props : lookup_prop k (set_prop k v props) = Some v.
Proof.
  induction props as [| [k' v'] props IH]; simpl.
  - now rewrite String.eqb_refl.
  - destruct (String.eqb k k') eqn:E; simpl; rewrite ?String.eqb_refl, ?E; auto.
Qed.

Lemma lookup_set_prop_other k k' v props :
  k <> k' -> lookup_prop k' (set_prop k v props) = lookup_prop k' props.
Proof.
  intros Hne. apply not_eq_sym, String.eqb_neq in Hne.
  induction props as [| [k0 v0] props IH]; simpl.
  - now rewrite Hne.
  - destruct (String.eqb k k0) eqn:E; simpl.
    + apply String.eqb_eq in E as <-. now rewrite Hne.
    + now rewrite IH.
Qed.

Lemma set_prop_twice k a b props : set_prop k b (set_prop k a props) = set_prop k b props.
Proof.
  induction props as [| [k' v'] props IH]; simpl.
  - now rewrite String.eqb_refl.
  - destruct (String.eqb k k') eqn:E; simpl; rewrite ?String.eqb_refl, ?E, ?IH; auto.
Qed.



Lemma lookup_delete_prop_same k props : lookup_prop k (delete_prop k props) = None.
Proof.
  unfold delete_prop. induction props as [| [k' v'] props IH]; simpl; [reflexivity |].
  destruct (String.eqb k k') eqn:E; simpl; rewrite ?E; auto.
Qed.

Lemma lookup_delete_prop_other k k' props :
  k <> k' -> lookup_prop k' (delete_prop k props) = lookup_prop k' props.
Proof.
  intros Hne. unfold delete_prop.
  induction props as [| [k0 v0] props IH]; simpl; [reflexivity |].
  destruct (String.eqb k k0) eqn:E; simpl.
  - apply String.eqb_eq in E as <-. apply not_eq_sym, String.eqb_neq in Hne.
    now rewrite Hne.
  - now rewrite IH.
Qed.


(** ** The store: what a write leaves, and what it leaves alone *)


Lemma lookup_at_cons k p node :
  lookup_at (k :: p) node =
  match lookup_prop k (props_of node) with
  | Some child => lookup_at p child
  | None => None
  end.
Proof. destruct node; reflexivity. Qed.

Lemma lookup_at_snoc p q node :
  lookup_at (p ++ q) node =
  match lookup_at p node with
  | Some below => lookup_at q below
  | None => None
  end.
Proof.
  revert node. induction p as [| k p IH]; intros node; [reflexivity |].
  change ((k :: p) ++ q)%list with (k :: (p ++ q)%list). rewrite !lookup_at_cons.
  destruct (lookup_prop k (props_of node)); [apply IH | reflexivity].
Qed.

Lemma lookup_at_set_at_same p v node : lookup_at p (set_at p v node) = Some v.
Proof.
  revert node. induction p as [| k p IH]; intros node; [reflexivity |].
  simpl. rewrite lookup_set_prop_same. apply IH.
Qed.


Lemma set_at_twice p a b node : set_at p b (set_at p a node) = set_at p b node.
Proof.
  revert node. induction p as [| k p IH]; intros node; [reflexivity |].
  cbn [set_at props_of]. rewrite lookup_set_prop_same. simpl.
  now rewrite IH, set_prop_twice.
Qed.

Lemma remove_at_cons k rest node :
  remove_at (k :: rest) node =
  match node with
  | VObj props =>
      match rest with
      | [] => VObj (delete_prop k props)
      | _ :: _ =>
          match lookup_prop k props with
          | Some child => VObj (set_prop k (remove_at rest child) props)
          | None => node
          end
      end
  | _ => node
  end.
Proof. destruct rest, node; reflexivity. Qed.


Lemma lookup_at_remove_at_same p node : p <> [] -> lookup_at p (remove_at p node) = None.
Proof.
  revert node. induction p as [| k p IH]; intros node Hp; [contradiction |].
  rewrite remove_at_cons. destruct node; try reflexivity.
  destruct p as [| k' p].
  - cbn [lookup_at]. now rewrite lookup_delete_prop_same.
  - destruct (lookup_prop k props) as [child |] eqn:E.
    + rewrite lookup_at_cons. cbn [props_of]. rewrite lookup_set_prop_same.
      now apply IH.
    + rewrite lookup_at_cons. cbn [props_of]. now rewrite E.
Qed.

Lemma lookup_at_remove_at_apart p f g q q' node :
  f <> g ->
  lookup_at (p ++ f :: q) (remove_at (p ++ g :: q') node) = lookup_at (p ++ f :: q) node.
Proof.
  intros Hne. revert node. induction p as [| k p IH]; intros node.
  - change ([] ++ f :: q)%list with (f :: q). change ([] ++ g :: q')%list with (g :: q').
    rewrite remove_at_cons. destruct node; try reflexivity.
    destruct q' as [| k' q'].
    + rewrite !lookup_at_cons. cbn [props_of].
      now rewrite lookup_delete_prop_other by now apply not_eq_sym.
    + destruct (lookup_prop g props); [| reflexivity].
      rewrite !lookup_at_cons. cbn [props_of].
      now rewrite lookup_set_prop_other by now apply not_eq_sym.
  - change ((k :: p) ++ f :: q)%list with (k :: (p ++ f :: q)%list).
    change ((k :: p) ++ g :: q')%list with (k :: (p ++ g :: q')%list).
    rewrite remove_at_cons. destruct node; try reflexivity.
    destruct (p ++ g :: q')%list as [| k' rest] eqn:Erest; [now destruct p |].
    destruct (lookup_prop k props) as [child |] eqn:E; [| reflexivity].
    rewrite !lookup_at_cons. cbn [props_of]. rewrite lookup_set_prop_same, E.
    apply IH.
Qed.

(** ** Keys, paths and what the store keeps *)

Lemma all_chars_app f a b : all_chars f (a +:+ b) = all_chars f a && all_chars f b.
Proof.
  induction a as [| c a IH]; simpl; [reflexivity |]. now rewrite IH, andb_assoc.
Qed.

Lemma all_chars_impl (f g : ascii -> bool) s :
  (forall c, f c = true -> g c = true) -> all_chars f s = true -> all_chars g s = true.
Proof.
  intros Hfg. induction s as [| c s IH]; simpl; [reflexivity |].
  intros Hs. apply andb_true_iff in Hs as [Hc Hs]. now rewrite (Hfg c Hc), IH.
Qed.

Lemma all_chars_without f c s :
  f c = false -> all_chars f s = true -> has_char c s = false.
Proof.
  intros Hc. induction s as [| x s IH]; simpl; [reflexivity |].
  intros Hs. apply andb_true_iff in Hs as [Hx Hs]. rewrite (IH Hs), orb_false_r.
  destruct (Ascii.eqb x c) eqn:E; [| reflexivity].
  apply Ascii.eqb_eq in E as ->. congruence.
Qed.

Lemma valid_key_nonempty k : valid_key k = true -> k <> "".
Proof. intros Hk ->. discriminate Hk. Qed.

Lemma valid_key_without_slash k : valid_key k = true -> has_char "/" k = false.
Proof.
  unfold valid_key. intros Hk. apply andb_true_iff in Hk as [_ Hk].
  apply (all_chars_without _ "/"%char k) in Hk; [exact Hk |].
  now rewrite andb_false_r.
Qed.

Lemma valid_key_path k : valid_key k = true -> valid_path k = true.
Proof.
  unfold valid_key, valid_path. intros Hk. apply andb_true_iff in Hk as [Hne Hk].
  rewrite Hne. apply (all_chars_impl _ path_char) in Hk; [exact Hk |].
  intros c Hc. now apply andb_true_iff in Hc as [Hc _].
Qed.

Lemma valid_path_under (name rest : string) :
  valid_path name = true -> valid_path rest = true ->
  valid_path (name +:+ String "/" rest) = true.
Proof.
  unfold valid_path. intros Hn Hr.
  apply andb_true_iff in Hn as [Hne Hn]. apply andb_true_iff in Hr as [_ Hr].
  rewrite all_chars_app, Hn. cbn [all_chars]. rewrite Hr.
  destruct name; [discriminate Hne | reflexivity].
Qed.

Lemma path_segments_key k : valid_key k = true -> path_segments k = [k].
Proof.
  intros Hk. unfold path_segments.
  rewrite (split_without _ _ (valid_key_without_slash k Hk)). cbn [List.filter].
  pose proof (valid_key_nonempty k Hk) as Hne. apply String.eqb_neq in Hne. now rewrite Hne.
Qed.

Lemma plain_key_valid k : plain_key k = true -> valid_key k = true.
Proof.
  unfold plain_key. intros Hk. apply andb_true_iff in Hk as [Hk _].
  now apply andb_true_iff in Hk as [Hk _].
Qed.












(** ** Tokens: what is signed verifies until it expires *)

Section Tokens.
Context `{Codec}.

Lemma jwt_sign_claims userId email role secret issued :
  secret <> "" ->
  jwt_sign (VObj [("userId", userId); ("email", email); ("role", role)]) secret issued =
  Normal (encode_token (issued_claims userId email role issued) secret).
Proof. intros Hs. unfold jwt_sign. apply String.eqb_neq in Hs. now rewrite Hs. Qed.

Lemma issued_claims_exp userId email role issued :
  lookup_prop "exp" (issued_claims userId email role issued) =
  Some (VNum (issued + expiresIn_24h)).
Proof.
  unfold issued_claims, is_defined.
  destruct userId, email, role; reflexivity.
Qed.

Lemma issued_claims_email email userId role issued :
  email <> VUndef ->
  lookup_prop "email" (issued_claims userId email role issued) = Some email.
Proof.
  intros He. unfold issued_claims, is_defined.
  destruct userId, email, role; try reflexivity; contradiction.
Qed.

Lemma issued_claims_role role userId email issued :
  role <> VUndef ->
  lookup_prop "role" (issued_claims userId email role issued) = Some role.
Proof.
  intros Hr. unfold issued_claims, is_defined.
  destruct userId, email, role; try reflexivity; contradiction.
Qed.

Lemma truthy_token claims secret : truthy (VStr (encode_token claims secret)) = true.
Proof.
  simpl. destruct (String.eqb (encode_token claims secret) "") eqn:E; [| reflexivity].
  apply String.eqb_eq in E. now apply encode_token_nonempty in E.
Qed.

Lemma jwt_verify_issued userId email role secret issued at_clock :
  secret <> "" ->
  at_clock < issued + expiresIn_24h ->
  jwt_verify (VStr (encode_token (issued_claims userId email role issued) secret))
    secret at_clock = Normal (VObj (issued_claims userId email role issued)).
Proof.
  intros Hs Hfresh. unfold jwt_verify. rewrite truthy_token. cbn [negb].
  apply String.eqb_neq in Hs. rewrite Hs, decode_encode_token, issued_claims_exp.
  destruct (Z.leb_spec (issued + expiresIn_24h) at_clock); [lia | reflexivity].
Qed.

Lemma jwt_verify_expired userId email role secret issued at_clock :
  secret <> "" ->
  issued + expiresIn_24h <= at_clock ->
  jwt_verify (VStr (encode_token (issued_claims userId email role issued) secret))
    secret at_clock = Throw "jwt expired".
Proof.
  intros Hs Hold. unfold jwt_verify. rewrite truthy_token. cbn [negb].
  apply String.eqb_neq in Hs. rewrite Hs, decode_encode_token, issued_claims_exp.
  destruct (Z.leb_spec (issued + expiresIn_24h) at_clock); [reflexivity | lia].
Qed.

Lemma jwt_verify_other_secret claims secret secret' at_clock :
  secret <> secret' ->
  exists message,
    jwt_verify (VStr (encode_token claims secret)) secret' at_clock = Throw message.
Proof.
  intros Hne. unfold jwt_verify. rewrite truthy_token. cbn [negb].
  destruct (String.eqb secret' ""); [now eexists |].
  rewrite decode_other_secret by exact Hne. now eexists.
Qed.

(** ** The gate *)

Lemma bearer_words token :
  has_char " " token = false ->
  split_value " " ("Bearer " +:+ token) = [VStr "Bearer"; VStr token].
Proof.
  intros Hw. unfold split_value.
  change ("Bearer " +:+ token) with ("Bearer" +:+ String " " token).
  now rewrite split_two.
Qed.

Lemma verifyToken_no_header prog env req :
  authorization req = None ->
  verifyToken prog env req =
  Answered (res_status_json 401 (VObj [("error", VStr "No token provided")])).
Proof. intros Hh. unfold verifyToken, authorization_words. now rewrite Hh. Qed.

Lemma verifyToken_part_000_bearer env req token :
  authorization req = Some ("Bearer " +:+ token) ->
  has_char " " token = false -> token <> "" ->
  verifyToken part_000 env req =
  match jwt_verify (VStr token) (JWT_SECRET env) (clock env) with
  | Normal decoded =>
      Next {| authorization := authorization req; params := params req;
              body := body req; user := decoded |}
  | Throw _ => Answered (res_status_json 401 (VObj [("error", VStr "Invalid token")]))
  end.
Proof.
  intros Hh Hw Hne. unfold verifyToken, authorization_words. rewrite Hh, bearer_words by exact Hw.
  cbn [item nth truthy]. apply String.eqb_neq in Hne. now rewrite Hne.
Qed.

Lemma verifyToken_index_api_header env req header :
  authorization req = Some header ->
  verifyToken index_api env req =
  Answered (res_status_json 401 (VObj [("error", VStr "Invalid token")])).
Proof. intros Hh. unfold verifyToken, authorization_words. now rewrite Hh. Qed.

End Tokens.

(** ** Queries *)

Lemma strict_equal_string leaf s : strict_equal leaf (VStr s) = true <-> leaf = VStr s.
Proof.
  destruct leaf; simpl; try (split; [discriminate | discriminate]).
  split; [intros E; apply String.eqb_eq in E; now subst | intros [= ->]; apply String.eqb_refl].
Qed.

Lemma child_matches_string fld s kv :
  child_matches fld (VStr s) kv = true <-> lookup_prop fld (props_of (snd kv)) = Some (VStr s).
Proof.
  unfold child_matches. destruct (lookup_prop fld (props_of (snd kv))) as [leaf |].
  - rewrite strict_equal_string. split; [now intros -> | now intros [= ->]].
  - split; discriminate.
Qed.

Lemma matching_nil fld s r db :
  (forall k u, In (k, u) (children r db) -> lookup_prop fld (props_of u) <> Some (VStr s)) ->
  matching fld (VStr s) r db = [].
Proof.
  intros Hnone. unfold matching.
  induction (children r db) as [| [k u] rest IH]; [reflexivity |].
  simpl. destruct (child_matches fld (VStr s) (k, u)) eqn:E.
  - apply child_matches_string in E. exfalso. apply (Hnone k u); [now left | exact E].
  - apply IH. intros k' u' Hin. apply (Hnone k' u'). now right.
Qed.

Lemma matching_In fld s r db k u :
  In (k, u) (children r db) -> lookup_prop fld (props_of u) = Some (VStr s) ->
  exists k' u' more, matching fld (VStr s) r db = (k', u') :: more.
Proof.
  intros Hin Hu. unfold matching.
  destruct (List.filter (child_matches fld (VStr s)) (children r db)) as [| [k' u'] more] eqn:E.
  - assert (In (k, u) []) as [].
    rewrite <- E. apply List.filter_In. split; [exact Hin |].
    now apply child_matches_string.
  - now exists k', u', more.
Qed.

Lemma matching_head fld s r db k u more :
  matching fld (VStr s) r db = (k, u) :: more ->
  In (k, u) (children r db) /\ lookup_prop fld (props_of u) = Some (VStr s).
Proof.
  intros E. assert (In (k, u) (matching fld (VStr s) r db)) as Hin by (rewrite E; now left).
  apply List.filter_In in Hin as [Hin Hm]. split; [exact Hin |].
  now apply child_matches_string in Hm.
Qed.

Lemma member_defined o k v : member o k = Normal v -> o <> VUndef /\ o <> VNull.
Proof. destruct o; simpl; try discriminate; intros _; split; discriminate. Qed.

Lemma member_object o k :
  o <> VUndef -> o <> VNull -> member o k = Normal (default VUndef (lookup_prop k (own_props o))).
Proof. destruct o; simpl; try reflexivity; intros; contradiction. Qed.

Lemma truthy_nonempty s : s <> "" -> truthy (VStr s) = true.
Proof. intros Hs. simpl. apply String.eqb_neq in Hs. now rewrite Hs. Qed.

(** ** Registration *)

Section Register.
Context `{Codec}.

Lemma ref_users refused : ref refused (VStr "users") = Normal ["users"].
Proof. reflexivity. Qed.

Lemma register_required_fields env req db email password name :
  member (body req) "email" = Normal email ->
  member (body req) "password" = Normal password ->
  member (body req) "name" = Normal name ->
  truthy email && truthy password && truthy name = false ->
  post_register env req db =
  (res_status_json 400 (VObj [("error", VStr "Email, password, and name required")]), db).
Proof.
  intros He Hp Hn Hfalsy. destruct (member_defined _ _ _ He) as [Hb1 Hb2].
  unfold post_register, try_catch, bind, lift, query, ret.
  rewrite He, Hp, Hn, (member_object _ "role" Hb1 Hb2).
  destruct (truthy email), (truthy password), (truthy name); try discriminate; reflexivity.
Qed.

(** C4, as amended.  A registration with an email that already has a user
    record is answered 400 (not 409) and leaves the store as it was, so no
    second record is made; the error is "User already exists" when the
    request carries a truthy email, password and name, and "Email, password,
    and name required" when one of them is missing or falsy. *)
Theorem register_existing_email env req db e password name k u :
  member (body req) "email" = Normal (VStr e) ->
  member (body req) "password" = Normal password ->
  member (body req) "name" = Normal name ->
  In (k, u) (children ["users"] db) ->
  lookup_prop "email" (props_of u) = Some (VStr e) ->
  status (fst (post_register env req db)) = 400%nat
  /\ status (fst (post_register env req db)) <> 409%nat
  /\ snd (post_register env req db) = db
  /\ (e <> "" -> truthy password = true -> truthy name = true ->
      post_register env req db =
      (res_status_json 400 (VObj [("error", VStr "User already exists")]), db))
  /\ (e = "" \/ truthy password = false \/ truthy name = false ->
      post_register env req db =
      (res_status_json 400 (VObj [("error", VStr "Email, password, and name required")]),
       db)).
Proof.
  intros He Hp Hn Hin Hu.
  assert (e <> "" -> truthy password = true -> truthy name = true ->
          post_register env req db =
          (res_status_json 400 (VObj [("error", VStr "User already exists")]), db)) as Hdup.
  { intros Hne Hpt Hnt. destruct (member_defined _ _ _ He) as [Hb1 Hb2].
    destruct (matching_In "email" e ["users"] db k u Hin Hu) as (k' & u' & more & Hm).
    unfold post_register, try_catch, bind, lift, query, ret.
    rewrite He, Hp, Hn, (member_object _ "role" Hb1 Hb2), (truthy_nonempty e Hne), Hpt, Hnt.
    cbn [negb orb]. rewrite ref_users. unfold equalTo_once. now rewrite Hm. }
  destruct (truthy (VStr e) && truthy password && truthy name) eqn:Hall.
  - apply andb_true_iff in Hall as [Hall Hnt]. apply andb_true_iff in Hall as [Het Hpt].
    assert (e <> "") as Hne by (intros ->; discriminate Het).
    rewrite (Hdup Hne Hpt Hnt). cbn [fst snd status res_status_json].
    split; [reflexivity |]. split; [discriminate |]. split; [reflexivity |].
    split; [reflexivity |].
    intros [-> | [Hpf | Hnf]]; [contradiction | congruence | congruence].
  - rewrite (register_required_fields env req db _ _ _ He Hp Hn Hall).
    cbn [fst snd status res_status_json].
    split; [reflexivity |]. split; [discriminate |]. split; [reflexivity |].
    split; [| reflexivity].
    intros Hne Hpt Hnt. rewrite (truthy_nonempty e Hne), Hpt, Hnt in Hall. discriminate Hall.
Qed.

Lemma or_else_user_defined role :
  role = VUndef \/ (exists r, role = VStr r) ->
  has_undefined (or_else role (VStr "user")) = false /\ or_else role (VStr "user") <> VUndef.
Proof.
  intros [-> | [r ->]]; [split; [reflexivity | discriminate] |].
  unfold or_else. destruct (truthy (VStr r)); split; try reflexivity; discriminate.
Qed.

Lemma or_else_user_string role :
  role = VUndef \/ (exists r, role = VStr r) -> exists r', or_else role (VStr "user") = VStr r'.
Proof.
  intros [-> | [r ->]]; [now exists "user" |].
  unfold or_else. destruct (truthy (VStr r)); now eexists.
Qed.

(** C2, as amended.  With the signing secret set: when email, password and
    name are non-empty strings, the role is absent or a string, and no user
    record has that email, the registration is answered 200; the record is
    written under the key the store hands out; and the token returned
    verifies under the signing secret, until it expires, to claims with the
    same email and with the body's role when that is truthy, "user"
    otherwise. *)
Theorem register_new_user env req db e p n role :
  JWT_SECRET env <> "" ->
  member (body req) "email" = Normal (VStr e) -> e <> "" ->
  member (body req) "password" = Normal (VStr p) -> p <> "" ->
  member (body req) "name" = Normal (VStr n) -> n <> "" ->
  member (body req) "role" = Normal role -> (role = VUndef \/ exists r, role = VStr r) ->
  (forall k u, In (k, u) (children ["users"] db) ->
               lookup_prop "email" (props_of u) <> Some (VStr e)) ->
  let role' := or_else role (VStr "user") in
  let userId := VStr (push_key env) in
  let record :=
    VObj [("email", VStr e); ("password", VStr p); ("name", VStr n); ("role", role');
          ("createdAt", VStr (toISOString (now env)))] in
  let claims := issued_claims userId (VStr e) role' (clock env) in
  let token := encode_token claims (JWT_SECRET env) in
  post_register env req db =
    (res_json (VObj [("success", VBool true);
                     ("token", VStr token);
                     ("user", VObj [("id", userId); ("email", VStr e); ("name", VStr n);
                                    ("role", role')])]),
     set_at ["users"; push_key env] record db)
  /\ lookup_at ["users"; push_key env] (snd (post_register env req db)) = Some record
  /\ (forall at_clock, at_clock < clock env + expiresIn_24h ->
        jwt_verify (VStr token) (JWT_SECRET env) at_clock = Normal (VObj claims))
  /\ lookup_prop "email" claims = Some (VStr e)
  /\ lookup_prop "role" claims = Some role'.
Proof.
  intros Hsecret He Hne Hp Hpne Hn Hnne Hr Hrole Hnone role' userId record claims token.
  destruct (or_else_user_defined role Hrole) as [Hdef Hrole'].
  assert (post_register env req db =
          (res_json (VObj [("success", VBool true);
                           ("token", VStr token);
                           ("user", VObj [("id", userId); ("email", VStr e);
                                          ("name", VStr n); ("role", role')])]),
           set_at ["users"; push_key env] record db)) as Heq.
  { unfold post_register, try_catch, bind, lift, query, ret, write.
    rewrite He, Hp, Hn, Hr, !truthy_nonempty by assumption.
    cbn [negb orb]. rewrite ref_users. unfold equalTo_once.
    rewrite (matching_nil "email" e ["users"] db Hnone). cbn [snapshot_exists].
    subst token claims record role'.
    destruct (or_else_user_string role Hrole) as [r' ->].
    rewrite jwt_sign_claims by exact Hsecret. reflexivity. }
  split; [exact Heq |]. rewrite Heq. cbn [snd]. split; [apply lookup_at_set_at_same |].
  split; [intros at_clock Hfresh; now apply jwt_verify_issued |].
  split; [now apply issued_claims_email | now apply issued_claims_role].
Qed.

End Register.

Lemma register_existing_email_witness :
  post_register env_morning (json_request (registration "ana@x.com" "other" "Ana B"))
    one_user =
  (res_status_json 400 (VObj [("error", VStr "User already exists")]), one_user).
Proof.
  apply (register_existing_email env_morning
           (json_request (registration "ana@x.com" "other" "Ana B")) one_user
           "ana@x.com" (VStr "other") (VStr "Ana B") "-Nj0" ana);
    try reflexivity; try discriminate.
  now left.
Defined.

(** C4 fails as stated: an existing email sent without a password is
    answered "Email, password, and name required", not "User already
    exists". *)
Lemma register_existing_email_without_password :
  let sent := VObj [("email", VStr "ana@x.com"); ("name", VStr "Ana")] in
  In ("-Nj0", ana) (children ["users"] one_user)
  /\ lookup_prop "email" (props_of ana) = Some (VStr "ana@x.com")
  /\ post_register env_morning (json_request sent) one_user =
     (res_status_json 400 (VObj [("error", VStr "Email, password, and name required")]),
      one_user).
Proof. repeat split. now left. Qed.

(** C2 fails as stated: an email that is present but empty is refused, and a
    role that is supplied but empty is replaced by "user". *)
Lemma register_present_but_empty :
  let no_email := registration "" "pw" "Ana" in
  let empty_role :=
    VObj [("email", VStr "ana@x.com"); ("password", VStr "pw"); ("name", VStr "Ana");
          ("role", VStr "")] in
  let claims :=
    issued_claims (VStr "-Nk1") (VStr "ana@x.com") (VStr "user") (clock env_morning) in
  member no_email "email" = Normal (VStr "")
  /\ post_register env_morning (json_request no_email) VNull =
     (res_status_json 400 (VObj [("error", VStr "Email, password, and name required")]),
      VNull)
  /\ member empty_role "role" = Normal (VStr "")
  /\ fst (post_register env_morning (json_request empty_role) VNull) =
     res_json (VObj [("success", VBool true);
                     ("token", VStr (encode_token claims "s3cret"));
                     ("user", VObj [("id", VStr "-Nk1"); ("email", VStr "ana@x.com");
                                    ("name", VStr "Ana"); ("role", VStr "user")])])
  /\ jwt_verify (VStr (encode_token claims "s3cret")) "s3cret" (clock env_morning) =
     Normal (VObj claims)
  /\ lookup_prop "role" claims = Some (VStr "user").
Proof.
  repeat split; reflexivity.
Qed.

Lemma register_new_user_witness :
  post_register env_morning (json_request (registration "ana@x.com" "pw" "Ana")) VNull =
  (res_json
     (VObj [("success", VBool true);
            ("token",
             VStr (encode_token
                     (issued_claims (VStr "-Nk1") (VStr "ana@x.com") (VStr "user")
                        (clock env_morning)) "s3cret"));
            ("user", VObj [("id", VStr "-Nk1"); ("email", VStr "ana@x.com");
                           ("name", VStr "Ana"); ("role", VStr "user")])]),
   VObj [("users",
          VObj [("-Nk1",
                 VObj [("email", VStr "ana@x.com"); ("password", VStr "pw");
                       ("name", VStr "Ana"); ("role", VStr "user");
                       ("createdAt", VStr "2026-11-03T06:42:07.045Z")])])]).
Proof.
  apply (register_new_user env_morning
           (json_request (registration "ana@x.com" "pw" "Ana")) VNull
           "ana@x.com" "pw" "Ana" VUndef);
    try reflexivity; try discriminate.
  - now left.
  - intros k u [].
Defined.

(** ** Login *)

Section Login.
Context `{Codec}.

Lemma login_bad_request prog env req db email password :
  member (body req) "email" = Normal email ->
  member (body req) "password" = Normal password ->
  truthy email = false \/ truthy password = false ->
  post_login prog env req db =
  (res_status_json 400 (VObj [("error", VStr "Email and password required")]), db).
Proof.
  intros He Hp Hfalsy. unfold post_login, try_catch, bind, lift, query, ret. rewrite He, Hp.
  destruct Hfalsy as [-> | ->]; [reflexivity |]. now rewrite orb_true_r.
Qed.

Lemma login_unknown_email prog env req db e p :
  member (body req) "email" = Normal (VStr e) -> e <> "" ->
  member (body req) "password" = Normal (VStr p) -> p <> "" ->
  (forall k u, In (k, u) (children ["users"] db) ->
               lookup_prop "email" (props_of u) <> Some (VStr e)) ->
  post_login prog env req db =
  (res_status_json 401 (VObj [("error", VStr "Invalid credentials")]), db).
Proof.
  intros He Hne Hp Hpne Hnone. unfold post_login, try_catch, bind, lift, query, ret.
  rewrite He, Hp, !truthy_nonempty by assumption. cbn [negb orb].
  rewrite ref_users. unfold equalTo_once.
  now rewrite (matching_nil "email" e ["users"] db Hnone).
Qed.

(** The record found is an object, and its email is the one asked for. *)
Lemma matching_head_object s r db k u more :
  matching "email" (VStr s) r db = (k, u) :: more ->
  u = VObj (props_of u) /\ field u "email" = VStr s.
Proof.
  intros Hm. apply matching_head in Hm as [_ Hu]. unfold field. rewrite Hu.
  split; [| reflexivity]. destruct u; try discriminate. reflexivity.
Qed.

Lemma strict_equal_string_false leaf s : leaf <> VStr s -> strict_equal leaf (VStr s) = false.
Proof.
  intros Hne. destruct (strict_equal leaf (VStr s)) eqn:E; [| reflexivity].
  now apply strict_equal_string in E.
Qed.

Lemma userData_first_key k u more :
  member_computed (VObj ((k, u) :: more)) (item 0 (Object_keys (VObj ((k, u) :: more)))) =
  Normal u.
Proof.
  unfold member_computed, Object_keys. cbn [own_props List.map item nth fst ToString member].
  cbn [lookup_prop]. now rewrite String.eqb_refl.
Qed.

Lemma userData_key_list k u :
  member_computed (VObj [(k, u)]) (VArr (Object_keys (VObj [(k, u)]))) = Normal u.
Proof.
  unfold member_computed, Object_keys.
  cbn [own_props List.map fst ToString String.concat member].
  cbn [lookup_prop]. now rewrite String.eqb_refl.
Qed.

Lemma login_signed_token env userId u :
  JWT_SECRET env <> "" ->
  login_signed env userId u = login_response userId u (login_token env userId u).
Proof. intros Hs. unfold login_signed. now rewrite jwt_sign_claims. Qed.

Lemma login_part_000_found env req db e p k u more :
  member (body req) "email" = Normal (VStr e) -> e <> "" ->
  member (body req) "password" = Normal (VStr p) -> p <> "" ->
  matching "email" (VStr e) ["users"] db = (k, u) :: more ->
  post_login part_000 env req db =
  (if strict_equal (field u "password") (VStr p)
   then login_signed env (VStr k) u
   else res_status_json 401 (VObj [("error", VStr "Invalid credentials")]), db).
Proof.
  intros He Hne Hp Hpne Hm. destruct (matching_head_object e _ _ _ _ _ Hm) as [Hobj _].
  unfold post_login, try_catch, bind, lift, query, ret.
  rewrite He, Hp, !truthy_nonempty by assumption. cbn [negb orb].
  rewrite ref_users. unfold equalTo_once. rewrite Hm.
  cbn [snapshot_exists negb snapshot_val from_option id]. rewrite userData_first_key.
  unfold login_signed, login_response, field. rewrite Hobj.
  cbn [member own_props props_of item nth List.map fst Object_keys].
  destruct (strict_equal _ (VStr p)); [| reflexivity].
  cbn [negb]. now destruct (jwt_sign _ _ _).
Qed.

Lemma login_index_api_found_one env req db e p k u :
  member (body req) "email" = Normal (VStr e) -> e <> "" ->
  member (body req) "password" = Normal (VStr p) -> p <> "" ->
  matching "email" (VStr e) ["users"] db = [(k, u)] ->
  post_login index_api env req db =
  (if strict_equal (field u "password") (VStr p)
   then login_signed env (VArr [VStr k]) u
   else res_status_json 401 (VObj [("error", VStr "Invalid credentials")]), db).
Proof.
  intros He Hne Hp Hpne Hm. destruct (matching_head_object e _ _ _ _ _ Hm) as [Hobj _].
  unfold post_login, try_catch, bind, lift, query, ret.
  rewrite He, Hp, !truthy_nonempty by assumption. cbn [negb orb].
  rewrite ref_users. unfold equalTo_once. rewrite Hm.
  cbn [snapshot_exists negb snapshot_val from_option id]. rewrite userData_key_list.
  unfold login_signed, login_response, field. rewrite Hobj.
  cbn [member own_props props_of List.map fst Object_keys].
  destruct (strict_equal _ (VStr p)); [| reflexivity].
  cbn [negb]. now destruct (jwt_sign _ _ _).
Qed.

(** C3, as amended.  A login whose email or password is missing or falsy
    (the empty string included) is answered 400.  Otherwise, with a non-empty
    email and password: it is answered 401 when no stored user has the email;
    and in part_000, where the first user found decides, it is answered 401
    when that user's stored password is not the supplied string, and (the
    signing secret being set) 200 with a signed token and the user's id,
    email, name and role when it is. *)
Theorem login_answers prog env req db email password :
  member (body req) "email" = Normal email ->
  member (body req) "password" = Normal password ->
  (truthy email = false \/ truthy password = false ->
     post_login prog env req db =
     (res_status_json 400 (VObj [("error", VStr "Email and password required")]), db))
  /\ (forall e p, email = VStr e -> e <> "" -> password = VStr p -> p <> "" ->
       (forall k u, In (k, u) (children ["users"] db) ->
                    lookup_prop "email" (props_of u) <> Some (VStr e)) ->
       post_login prog env req db =
       (res_status_json 401 (VObj [("error", VStr "Invalid credentials")]), db))
  /\ (forall e p k u more,
       email = VStr e -> e <> "" -> password = VStr p -> p <> "" ->
       matching "email" (VStr e) ["users"] db = (k, u) :: more ->
       (field u "password" <> VStr p ->
          post_login part_000 env req db =
          (res_status_json 401 (VObj [("error", VStr "Invalid credentials")]), db))
       /\ (JWT_SECRET env <> "" -> field u "password" = VStr p ->
           post_login part_000 env req db =
           (login_response (VStr k) u (login_token env (VStr k) u), db)
           /\ field u "email" = VStr e
           /\ forall at_clock, at_clock < clock env + expiresIn_24h ->
                 jwt_verify (VStr (login_token env (VStr k) u)) (JWT_SECRET env) at_clock =
                 Normal (VObj (issued_claims (VStr k) (field u "email") (field u "role")
                                 (clock env))))).
Proof.
  intros He Hp. split; [now apply login_bad_request |].
  split.
  - intros e p -> Hne -> Hpne Hnone. now apply (login_unknown_email prog env req db e p).
  - intros e p k u more -> Hne -> Hpne Hm.
    rewrite (login_part_000_found env req db e p k u more) by assumption.
    split.
    + intros Hdiff. now rewrite strict_equal_string_false.
    + intros Hsecret Hsame. rewrite Hsame. cbn [strict_equal]. rewrite String.eqb_refl.
      split; [now rewrite login_signed_token |].
      split; [now destruct (matching_head_object e _ _ _ _ _ Hm) |].
      intros at_clock Hfresh. now apply jwt_verify_issued.
Qed.

(** C10, on the code.  With exactly one stored user of that email, and its
    password the supplied one, both programs answer 200 for the same record,
    but not the same answer: part_000 gives the user's key as [id] (and as the
    token's [userId]), index.js gives the one-element list of keys. *)
Theorem login_programs_differ_in_id env req db e p k u :
  JWT_SECRET env <> "" ->
  member (body req) "email" = Normal (VStr e) -> e <> "" ->
  member (body req) "password" = Normal (VStr p) -> p <> "" ->
  matching "email" (VStr e) ["users"] db = [(k, u)] ->
  field u "password" = VStr p ->
  post_login part_000 env req db =
    (login_response (VStr k) u (login_token env (VStr k) u), db)
  /\ post_login index_api env req db =
    (login_response (VArr [VStr k]) u (login_token env (VArr [VStr k]) u), db)
  /\ post_login part_000 env req db <> post_login index_api env req db.
Proof.
  intros Hsecret He Hne Hp Hpne Hm Hsame.
  rewrite (login_part_000_found env req db e p k u []) by assumption.
  rewrite (login_index_api_found_one env req db e p k u) by assumption.
  rewrite Hsame. cbn [strict_equal]. rewrite String.eqb_refl.
  rewrite !login_signed_token by exact Hsecret.
  split; [reflexivity |]. split; [reflexivity |].
  unfold login_response, res_json. intros Heq. discriminate Heq.
Qed.

End Login.

(** C3 fails as stated: a password that is present but empty, sent for a
    stored user whose password is another, is answered 400 and not 401. *)
Lemma login_empty_password_is_400 :
  member (credentials "ana@x.com" "") "password" = Normal (VStr "")
  /\ matching "email" (VStr "ana@x.com") ["users"] one_user = [("-Nj0", ana)]
  /\ field ana "password" = VStr "pw"
  /\ post_login part_000 env_morning (json_request (credentials "ana@x.com" "")) one_user =
     (res_status_json 400 (VObj [("error", VStr "Email and password required")]), one_user).
Proof. repeat split; reflexivity. Qed.

Lemma login_answers_witness :
  post_login part_000 env_morning (json_request (credentials "ana@x.com" "pw")) one_user =
  (login_response (VStr "-Nj0") ana (login_token env_morning (VStr "-Nj0") ana), one_user).
Proof.
  destruct (login_answers part_000 env_morning
              (json_request (credentials "ana@x.com" "pw")) one_user
              (VStr "ana@x.com") (VStr "pw") eq_refl eq_refl) as (_ & _ & Hfound).
  destruct (Hfound "ana@x.com" "pw" "-Nj0" ana [] eq_refl ltac:(discriminate)
              eq_refl ltac:(discriminate) eq_refl) as [_ Hsame].
  exact (proj1 (Hsame ltac:(discriminate) eq_refl)).
Defined.

Lemma login_programs_differ_in_id_witness :
  post_login part_000 env_morning (json_request (credentials "ana@x.com" "pw")) one_user <>
  post_login index_api env_morning (json_request (credentials "ana@x.com" "pw")) one_user.
Proof.
  apply (login_programs_differ_in_id env_morning
           (json_request (credentials "ana@x.com" "pw")) one_user "ana@x.com" "pw" "-Nj0" ana);
    try reflexivity; try discriminate.
Defined.

(** C10 at one login: the same record, the same email, name and role, and two
    different [id]s. *)
Lemma login_id_string_and_list :
  let answer prog :=
    json (fst (post_login prog env_morning (json_request (credentials "ana@x.com" "pw"))
                 one_user)) in
  field (field (answer part_000) "user") "id" = VStr "-Nj0"
  /\ field (field (answer index_api) "user") "id" = VArr [VStr "-Nj0"]
  /\ field (field (answer part_000) "user") "email" =
     field (field (answer index_api) "user") "email"
  /\ field (field (answer part_000) "user") "name" =
     field (field (answer index_api) "user") "name"
  /\ field (field (answer part_000) "user") "role" =
     field (field (answer index_api) "user") "role".
Proof. repeat split; reflexivity. Qed.

(** ** Employees *)

Lemma ref_under refused (name rest : string) :
  valid_path name = true -> path_segments name = [name] -> valid_path rest = true ->
  ref refused (VStr (name +:+ String "/" rest)) = Normal (name :: path_segments rest).
Proof.
  intros Hv Hn Hr. unfold ref.
  now rewrite (valid_path_under name rest Hv Hr), path_segments_under.
Qed.

Lemma ref_employees_id refused (id : string) :
  valid_key id = true -> ref refused (VStr ("employees/" +:+ id)) = Normal ["employees"; id].
Proof.
  intros Hid.
  rewrite (ref_under refused "employees" id eq_refl eq_refl (valid_key_path id Hid)
           : ref refused (VStr ("employees/" +:+ id)) = _).
  now rewrite (path_segments_key id Hid).
Qed.

Lemma lookup_at_set_at_below r q v node :
  lookup_at r (set_at (r ++ q) v node) = Some (set_at q v (default VNull (lookup_at r node))).
Proof.
  revert node. induction r as [| k r IH]; intros node; [reflexivity |].
  change ((k :: r) ++ q)%list with (k :: (r ++ q)%list). cbn [set_at].
  rewrite !lookup_at_cons. cbn [props_of]. rewrite lookup_set_prop_same, IH.
  destruct (lookup_prop k (props_of node)) as [child |]; [reflexivity |].
  simpl. destruct r; reflexivity.
Qed.










(** ** Attendance *)

Lemma digit_in_key n :
  path_char (digit n) && negb (Ascii.eqb (digit n) "/") = true.
Proof.
  destruct (digit_cases n) as [E | [E | [E | [E | [E | [E | [E | [E | [E | E]]]]]]]]];
    now rewrite E.
Qed.

Lemma iso_date_valid d : valid_key (iso_date d) = true.
Proof.
  unfold valid_key, iso_date, pad4, pad3, pad2. cbn [String.append String.eqb negb andb].
  cbn [all_chars]. rewrite !all_chars_app. cbn [all_chars]. now rewrite !digit_in_key.
Qed.

Lemma attendance_path_part_000 employeeId d :
  attendance_path part_000 employeeId d =
  "attendance/" +:+ ToString employeeId +:+ "/" +:+ iso_date d.
Proof. unfold attendance_path. now rewrite dateKey_part_000. Qed.

Lemma attendance_ref_part_000 refused id d :
  valid_key id = true ->
  ref refused (VStr (attendance_path part_000 (VStr id) d)) =
  Normal ["attendance"; id; iso_date d].
Proof.
  intros Hid. rewrite attendance_path_part_000. cbn [ToString].
  change ("attendance/" +:+ id +:+ "/" +:+ iso_date d)
    with ("attendance" +:+ String "/" (id +:+ String "/" (iso_date d))).
  assert (valid_path (id +:+ String "/" (iso_date d)) = true) as Hrest
    by (apply valid_path_under; apply valid_key_path; [exact Hid | apply iso_date_valid]).
  rewrite (ref_under refused "attendance" _ eq_refl eq_refl Hrest).
  now rewrite path_segments_app, (path_segments_key id Hid),
    (path_segments_key _ (iso_date_valid d)).
Qed.

Lemma attendance_login_part_000 env req db id :
  member (body req) "employeeId" = Normal (VStr id) ->
  valid_key id = true ->
  post_attendance_login part_000 env req db =
  (res_json (VObj [("success", VBool true); ("message", VStr "Login recorded")]),
   set_at ["attendance"; id; iso_date (now env)] (attendance_record (now env)) db).
Proof.
  intros He Hid. unfold post_attendance_login, try_catch, bind, lift, query, ret, write.
  rewrite He, (attendance_ref_part_000 _ id _ Hid). reflexivity.
Qed.

(** C6 in part_000, for an employee whose id is a plain key: the record is
    filed under the employee and the calendar date, with the login time and
    the status "present"; a second login of the same employee on the same day
    leaves the store as if it were the only one. *)
Lemma attendance_once_a_day_part_000 env env' req db id :
  member (body req) "employeeId" = Normal (VStr id) ->
  plain_key id = true ->
  iso_date (now env') = iso_date (now env) ->
  let r := ["attendance"; id; iso_date (now env)] in
  let db1 := snd (post_attendance_login part_000 env req db) in
  let db2 := snd (post_attendance_login part_000 env' req db1) in
  attendance_path part_000 (VStr id) (now env) =
    "attendance/" +:+ id +:+ "/" +:+ iso_date (now env)
  /\ lookup_at r db1 = Some (attendance_record (now env))
  /\ lookup_at r db2 = Some (attendance_record (now env'))
  /\ db2 = snd (post_attendance_login part_000 env' req db).
Proof.
  intros He Hid Hday r db1 db2. subst db1 db2. apply plain_key_valid in Hid.
  rewrite !(attendance_login_part_000 _ req _ id He Hid).
  cbn [snd]. rewrite Hday. fold r.
  split; [apply attendance_path_part_000 |].
  split; [apply lookup_at_set_at_same |].
  split; [apply lookup_at_set_at_same | apply set_at_twice].
Qed.

(** C6, on the code of index.js.  There the key is built from the list
    [date, time]: the path ends in the date, a comma and the time of day, and
    is not the path of the calendar date. *)
Theorem attendance_path_index_api employeeId d :
  attendance_path index_api employeeId d =
  "attendance/" +:+ ToString employeeId +:+ "/" +:+ iso_date d +:+ "," +:+ iso_time d.
Proof. unfold attendance_path. now rewrite dateKey_index_api. Qed.

Lemma attendance_once_a_day_witness :
  snd (post_attendance_login part_000 env_evening
         (json_request (VObj [("employeeId", VStr "e1")]))
         (snd (post_attendance_login part_000 env_morning
                 (json_request (VObj [("employeeId", VStr "e1")])) VNull))) =
  snd (post_attendance_login part_000 env_evening
         (json_request (VObj [("employeeId", VStr "e1")])) VNull).
Proof.
  apply (attendance_once_a_day_part_000 env_morning env_evening
           (json_request (VObj [("employeeId", VStr "e1")])) VNull "e1");
    reflexivity.
Defined.

(** C6 at two logins of one day.  In index.js the path has the time of day
    in it, with its dot, which the store's client refuses: the handler
    answers 500 and nothing is filed; in part_000 there is one key, the date. *)
Lemma attendance_twice_a_day :
  let req := json_request (VObj [("employeeId", VStr "e1")]) in
  let twice prog :=
    snd (post_attendance_login prog env_evening req
           (snd (post_attendance_login prog env_morning req VNull))) in
  attendance_path index_api (VStr "e1") morning = "attendance/e1/2026-11-03,06:42:07.045Z"
  /\ post_attendance_login index_api env_morning req VNull =
     (res_status_json 500 (VObj [("error", VStr "Failed to log attendance")]), VNull)
  /\ attendance_path part_000 (VStr "e1") morning = "attendance/e1/2026-11-03"
  /\ children ["attendance"; "e1"] (twice part_000) =
     [("2026-11-03", attendance_record evening)].
Proof. repeat split; reflexivity. Qed.

(** ** The protected routes *)

Section Protected.
Context `{Codec}.

(** A handler reads the parameters and the body of a request, and nothing
    else of it: not the header, not the claims the gate attached. *)
Lemma handler_reads_params_and_body prog route env req req' db :
  params req = params req' -> body req = body req' ->
  handler prog route env req db = handler prog route env req' db.
Proof.
  intros Hparams Hbody.
  destruct route; cbn [handler];
    unfold get_employees, post_employees, put_employee, delete_employee,
      get_attendance, post_attendance_login;
    rewrite ?Hparams, ?Hbody; reflexivity.
Qed.

(** C1, on the code.  A token just signed for a user, sent as
    [Bearer <token>] before it expires: part_000 calls the handler with the
    decoded claims attached; index.js, which hands the whole list of header
    words to the token library, answers 401. *)
Theorem verifyToken_fresh_token env userId email role p b u :
  JWT_SECRET env <> "" ->
  let claims := issued_claims userId email role (clock env) in
  let token := encode_token claims (JWT_SECRET env) in
  let req := {| authorization := Some ("Bearer " +:+ token);
                params := p; body := b; user := u |} in
  jwt_sign (VObj [("userId", userId); ("email", email); ("role", role)])
    (JWT_SECRET env) (clock env) = Normal token
  /\ verifyToken part_000 env req =
     Next {| authorization := Some ("Bearer " +:+ token);
             params := p; body := b; user := VObj claims |}
  /\ verifyToken index_api env req =
     Answered (res_status_json 401 (VObj [("error", VStr "Invalid token")])).
Proof.
  intros Hsecret claims token req. split; [now apply jwt_sign_claims |]. split.
  - rewrite (verifyToken_part_000_bearer env req token).
    + unfold token, claims. rewrite jwt_verify_issued; [reflexivity | exact Hsecret |].
      unfold expiresIn_24h. lia.
    + reflexivity.
    + apply encode_token_no_space.
    + apply encode_token_nonempty.
  - now apply (verifyToken_index_api_header env req ("Bearer " +:+ token)).
Qed.

(** The gate of part_000, case by case: no header, a token the library
    refuses, a token it accepts. *)
Lemma verifyToken_part_000_cases env req :
  (authorization req = None ->
     verifyToken part_000 env req =
     Answered (res_status_json 401 (VObj [("error", VStr "No token provided")])))
  /\ (forall token message,
        authorization req = Some ("Bearer " +:+ token) ->
        has_char " " token = false -> token <> "" ->
        jwt_verify (VStr token) (JWT_SECRET env) (clock env) = Throw message ->
        verifyToken part_000 env req =
        Answered (res_status_json 401 (VObj [("error", VStr "Invalid token")])))
  /\ (forall token decoded,
        authorization req = Some ("Bearer " +:+ token) ->
        has_char " " token = false -> token <> "" ->
        jwt_verify (VStr token) (JWT_SECRET env) (clock env) = Normal decoded ->
        verifyToken part_000 env req =
        Next {| authorization := authorization req; params := params req;
                body := body req; user := decoded |}).
Proof.
  split; [apply verifyToken_no_header |]. split.
  - intros token message Hh Hw Hne Hv.
    now rewrite (verifyToken_part_000_bearer env req token), Hv.
  - intros token decoded Hh Hw Hne Hv.
    now rewrite (verifyToken_part_000_bearer env req token), Hv.
Qed.

(** An expired token, and a token signed under another secret, are refused. *)
Lemma verifyToken_part_000_expired_or_forged env req userId email role issued secret :
  authorization req =
    Some ("Bearer " +:+ encode_token (issued_claims userId email role issued) secret) ->
  issued + expiresIn_24h <= clock env \/ secret <> JWT_SECRET env ->
  verifyToken part_000 env req =
  Answered (res_status_json 401 (VObj [("error", VStr "Invalid token")])).
Proof.
  intros Hh Hbad.
  rewrite (verifyToken_part_000_bearer env req _ Hh)
    by (apply encode_token_no_space || apply encode_token_nonempty).
  assert (exists message,
            jwt_verify (VStr (encode_token (issued_claims userId email role issued) secret))
              (JWT_SECRET env) (clock env) = Throw message) as [message ->];
    [| reflexivity].
  destruct (String.eqb secret (JWT_SECRET env)) eqn:E.
  - apply String.eqb_eq in E as ->. destruct Hbad as [Hold | Hsecret]; [| contradiction].
    destruct (String.eqb (JWT_SECRET env) "") eqn:Hset.
    + unfold jwt_verify. rewrite truthy_token, Hset. now eexists.
    + apply String.eqb_neq in Hset. rewrite jwt_verify_expired by assumption. now eexists.
  - apply String.eqb_neq in E. now apply jwt_verify_other_secret.
Qed.

(** C9. Two requests to a protected route that differ only in the role their
    valid tokens carry get the same answer and leave the same store; in
    part_000 both pass the gate, each with its own role attached. *)
Theorem protected_routes_ignore_role prog route env req1 req2 db
    userId email role1 role2 issued :
  let token role := encode_token (issued_claims userId email role issued) (JWT_SECRET env) in
  JWT_SECRET env <> "" ->
  authorization req1 = Some ("Bearer " +:+ token role1) ->
  authorization req2 = Some ("Bearer " +:+ token role2) ->
  params req1 = params req2 -> body req1 = body req2 ->
  clock env < issued + expiresIn_24h ->
  protected prog route env req1 db = protected prog route env req2 db
  /\ verifyToken part_000 env req1 =
     Next {| authorization := authorization req1; params := params req1;
             body := body req1;
             user := VObj (issued_claims userId email role1 issued) |}
  /\ verifyToken part_000 env req2 =
     Next {| authorization := authorization req2; params := params req2;
             body := body req2;
             user := VObj (issued_claims userId email role2 issued) |}.
Proof.
  intros token Hsecret Hh1 Hh2 Hparams Hbody Hfresh.
  assert (forall req role, authorization req = Some ("Bearer " +:+ token role) ->
            verifyToken part_000 env req =
            Next {| authorization := authorization req; params := params req;
                    body := body req;
                    user := VObj (issued_claims userId email role issued) |}) as Hgate.
  { intros req role Hh. rewrite (verifyToken_part_000_bearer env req _ Hh)
      by (apply encode_token_no_space || apply encode_token_nonempty).
    unfold token. now rewrite jwt_verify_issued. }
  split; [| split; [now apply Hgate | now apply Hgate]].
  unfold protected. destruct prog.
  - rewrite (Hgate req1 role1 Hh1), (Hgate req2 role2 Hh2).
    now apply handler_reads_params_and_body.
  - now rewrite (verifyToken_index_api_header env req1 _ Hh1),
      (verifyToken_index_api_header env req2 _ Hh2).
Qed.

End Protected.

Lemma verifyToken_part_000_expired_witness :
  verifyToken part_000 env_next_day (delete_as "admin") =
  Answered (res_status_json 401 (VObj [("error", VStr "Invalid token")])).
Proof.
  apply (verifyToken_part_000_expired_or_forged env_next_day (delete_as "admin")
           (VStr "-Nj0") (VStr "ana@x.com") (VStr "admin") (clock env_morning) "s3cret");
    [reflexivity | left; reflexivity].
Defined.

Lemma verifyToken_fresh_token_witness :
  verifyToken index_api env_morning (delete_as "admin") =
  Answered (res_status_json 401 (VObj [("error", VStr "Invalid token")])).
Proof.
  apply (verifyToken_fresh_token env_morning (VStr "-Nj0") (VStr "ana@x.com")
           (VStr "admin") (VObj [("id", VStr "-Ne7")]) (VObj []) VUndef).
  discriminate.
Defined.

Lemma protected_routes_ignore_role_witness :
  protected part_000 DELETE_employees_id env_evening (delete_as "admin") one_user =
  protected part_000 DELETE_employees_id env_evening (delete_as "user") one_user.
Proof.
  apply (protected_routes_ignore_role part_000 DELETE_employees_id env_evening
           (delete_as "admin") (delete_as "user") one_user
           (VStr "-Nj0") (VStr "ana@x.com") (VStr "admin") (VStr "user")
           (clock env_morning)); try reflexivity.
  discriminate.
Defined.

(** ** Save *)

Lemma ref_string refused s :
  valid_path s = true -> ref refused (VStr s) = Normal (path_segments s).
Proof. intros Hs. unfold ref. now rewrite Hs. Qed.







(** ** Children: what a write under a key does to the list *)

Lemma children_set_at_child r k v db :
  children r (set_at (r ++ [k]) v db) = set_prop k v (children r db).
Proof. unfold children. now rewrite lookup_at_set_at_below. Qed.

Lemma In_set_prop k v props : In (k, v) (set_prop k v props).
Proof.
  induction props as [| [k' v'] props IH]; simpl; [now left |].
  destruct (String.eqb k k'); [now left | now right].
Qed.

(** The one child that matches, when no child did before the write. *)
Lemma filter_set_prop_only (f : string * value -> bool) k v props :
  (forall kv, In kv props -> f kv = false) -> f (k, v) = true ->
  List.filter f (set_prop k v props) = [(k, v)].
Proof.
  intros Hnone Hkv. induction props as [| [k' v'] props IH]; simpl.
  - now rewrite Hkv.
  - assert (List.filter f props = []) as Hrest.
    { clear IH. induction props as [| kv props IH]; [reflexivity |].
      simpl. rewrite (Hnone kv) by (right; now left).
      apply IH. intros kv' [E | Hin]; apply Hnone; [now left | right; now right]. }
    destruct (String.eqb k k').
    + simpl. now rewrite Hkv, Hrest.
    + simpl. rewrite (Hnone (k', v')) by now left.
      apply IH. intros kv Hin. apply Hnone. now right.
Qed.

Lemma child_matches_false fld s kv :
  lookup_prop fld (props_of (snd kv)) <> Some (VStr s) -> child_matches fld (VStr s) kv = false.
Proof.
  intros Hne. destruct (child_matches fld (VStr s) kv) eqn:E; [| reflexivity].
  now apply child_matches_string in E.
Qed.

Lemma matching_after_write fld s r k u db :
  (forall k' u', In (k', u') (children r db) ->
                 lookup_prop fld (props_of u') <> Some (VStr s)) ->
  lookup_prop fld (props_of u) = Some (VStr s) ->
  matching fld (VStr s) r (set_at (r ++ [k]) u db) = [(k, u)].
Proof.
  intros Hnone Hu. unfold matching. rewrite children_set_at_child.
  apply filter_set_prop_only.
  - intros [k' u'] Hin. apply child_matches_false. now apply (Hnone k' u').
  - now apply child_matches_string.
Qed.

(** ** Object spread *)

Lemma lookup_prop_not_In k props :
  ~ In k (List.map fst props) -> lookup_prop k props = None.
Proof.
  induction props as [| [k' v'] props IH]; simpl; [reflexivity |].
  intros Hnot. destruct (String.eqb k k') eqn:E.
  - apply String.eqb_eq in E. exfalso. apply Hnot. now left.
  - apply IH. intros Hin. apply Hnot. now right.
Qed.

(** [{...target, ...source}]: a key of [source] has the value [source] gives
    it, any other key the value [target] gives it. *)
Lemma lookup_spread f target source :
  NoDup (List.map fst source) ->
  lookup_prop f (spread target source) =
  match lookup_prop f source with
  | Some v => Some v
  | None => lookup_prop f target
  end.
Proof.
  unfold spread. revert target.
  induction source as [| [k v] source IH]; intros target Hnd; [reflexivity |].
  apply NoDup_cons in Hnd as [Hk Hnd]. cbn [fold_left fst snd lookup_prop].
  rewrite (IH _ Hnd). destruct (String.eqb f k) eqn:E.
  - apply String.eqb_eq in E as ->.
    rewrite (lookup_prop_not_In k source), lookup_set_prop_same; [reflexivity |].
    intros Hin. apply Hk. now apply list_elem_of_In.
  - apply String.eqb_neq in E.
    now rewrite lookup_set_prop_other by now apply not_eq_sym.
Qed.

(** ** Strings: joining what [split] cut *)

Lemma length_append a b :
  String.length (a +:+ b) = (String.length a + String.length b)%nat.
Proof. induction a as [| x a IH]; simpl; [reflexivity | now rewrite IH]. Qed.

Lemma concat_cons sep a b l :
  String.concat sep (a :: b :: l) = a +:+ sep +:+ String.concat sep (b :: l).
Proof. reflexivity. Qed.

Lemma concat_split c s : String.concat (String c "") (split c s) = s.
Proof.
  induction s as [| x s IH]; [reflexivity |]. cbn [split].
  destruct (split_cons c s) as (piece & pieces & E). rewrite E in *.
  destruct (Ascii.eqb x c) eqn:Ex.
  - apply Ascii.eqb_eq in Ex as ->. rewrite concat_cons, IH. reflexivity.
  - destruct pieces as [| piece' pieces].
    + cbn [String.concat] in *. now rewrite IH.
    + rewrite <- IH, !concat_cons. reflexivity.
Qed.

Lemma split_pieces_without c s : Forall (fun piece => has_char c piece = false) (split c s).
Proof.
  induction s as [| x s IH]; cbn [split]; [now constructor |].
  destruct (Ascii.eqb x c) eqn:Ex; [now constructor |].
  destruct (split c s) as [| piece pieces]; [constructor; [| constructor]; simpl; now rewrite Ex |].
  apply Forall_cons in IH as [Hpiece Hpieces].
  constructor; [| exact Hpieces]. simpl. now rewrite Ex.
Qed.

Lemma ToString_strings l : ToString (VArr (List.map VStr l)) = String.concat "," l.
Proof.
  cbn [ToString]. f_equal. rewrite List.map_map.
  induction l as [| x l IH]; [reflexivity |]. cbn [List.map]. now rewrite IH.
Qed.

(** A key is shorter than the comma-joined list of two keys or more that it
    is in. *)
Lemma length_concat_In sep k l :
  In k l -> (String.length k <= String.length (String.concat sep l))%nat.
Proof.
  induction l as [| a l IH]; [intros [] |].
  destruct l as [| b l].
  - intros [-> | []]. reflexivity.
  - rewrite concat_cons, !length_append. intros [-> | Hin]; [lia |].
    specialize (IH Hin). lia.
Qed.

Lemma joined_keys_longer k a b l :
  In k (a :: b :: l) ->
  (String.length k < String.length (String.concat "," (a :: b :: l)))%nat.
Proof.
  rewrite concat_cons, !length_append. cbn [String.length].
  intros [-> | Hin]; [lia |].
  pose proof (length_concat_In "," k (b :: l) Hin). lia.
Qed.

Lemma lookup_joined_keys a b l :
  lookup_prop (String.concat "," (List.map fst (a :: b :: l))) (a :: b :: l) = None.
Proof.
  apply lookup_prop_not_In. intros Hin.
  apply (joined_keys_longer _ (fst a) (fst b) (List.map fst l)) in Hin as Hlt.
  cbn [List.map] in Hlt. lia.
Qed.

(** ** The gate, header by header *)

Section Gate.
Context `{Codec}.

(** In index.js no request passes the gate: every protected route answers
    401, whatever the header, and the store is as it was. *)
Theorem protected_index_api_refuses route env req db :
  protected index_api route env req db =
  (res_status_json 401
     (VObj [("error", VStr match authorization req with
                           | None => "No token provided"
                           | Some _ => "Invalid token"
                           end)]), db).
Proof.
  unfold protected. destruct (authorization req) as [header |] eqn:Hh.
  - now rewrite (verifyToken_index_api_header env req header Hh).
  - now rewrite (verifyToken_no_header index_api env req Hh).
Qed.

Lemma scheme_words scheme token :
  has_char " " scheme = false -> has_char " " token = false ->
  split_value " " (scheme +:+ " " +:+ token) = [VStr scheme; VStr token].
Proof.
  intros Hs Ht. unfold split_value.
  change (scheme +:+ " " +:+ token) with (scheme +:+ String " " token).
  now rewrite split_two.
Qed.

(** In part_000 a header of one word, a bare token included, is answered as
    if no token had been sent. *)
Theorem verifyToken_part_000_one_word env req word :
  authorization req = Some word ->
  has_char " " word = false ->
  verifyToken part_000 env req =
  Answered (res_status_json 401 (VObj [("error", VStr "No token provided")])).
Proof.
  intros Hh Hw. unfold verifyToken, authorization_words, split_value.
  now rewrite Hh, split_without.
Qed.

(** In part_000 the scheme is not looked at: the second word of the header
    is the token, whatever the first word is. *)
Theorem verifyToken_part_000_any_scheme env req scheme token :
  authorization req = Some (scheme +:+ " " +:+ token) ->
  has_char " " scheme = false -> has_char " " token = false -> token <> "" ->
  verifyToken part_000 env req =
  match jwt_verify (VStr token) (JWT_SECRET env) (clock env) with
  | Normal decoded =>
      Next {| authorization := authorization req; params := params req;
              body := body req; user := decoded |}
  | Throw _ => Answered (res_status_json 401 (VObj [("error", VStr "Invalid token")]))
  end.
Proof.
  intros Hh Hs Ht Hne. unfold verifyToken, authorization_words.
  rewrite Hh, scheme_words by assumption.
  cbn [item nth truthy]. apply String.eqb_neq in Hne. now rewrite Hne.
Qed.

End Gate.

Lemma verifyToken_part_000_one_word_witness :
  verifyToken part_000 env_morning
    {| authorization := Some (token_with_role "admin");
       params := VObj []; body := VObj []; user := VUndef |} =
  Answered (res_status_json 401 (VObj [("error", VStr "No token provided")])).
Proof.
  apply (verifyToken_part_000_one_word env_morning _ (token_with_role "admin"));
    reflexivity.
Defined.

Lemma verifyToken_part_000_any_scheme_witness :
  verifyToken part_000 env_evening
    {| authorization := Some ("Basic " +:+ token_with_role "admin");
       params := VObj []; body := VObj []; user := VUndef |} =
  Next {| authorization := Some ("Basic " +:+ token_with_role "admin");
          params := VObj []; body := VObj [];
          user := VObj (issued_claims (VStr "-Nj0") (VStr "ana@x.com") (VStr "admin")
                          (clock env_morning)) |}.
Proof.
  refine (eq_trans
            (verifyToken_part_000_any_scheme env_evening
               {| authorization := Some ("Basic " +:+ token_with_role "admin");
                  params := VObj []; body := VObj []; user := VUndef |}
               "Basic" (token_with_role "admin") eq_refl eq_refl eq_refl _) eq_refl).
  discriminate.
Defined.

(** ** Registration and login, one after the other *)

Section RegisterLogin.
Context `{Codec}.

(** A registration that passes both checks writes the record, then signs:
    when signing throws the record stays written. *)
Lemma post_register_fresh env req db e p n role :
  member (body req) "email" = Normal (VStr e) -> e <> "" ->
  member (body req) "password" = Normal (VStr p) -> p <> "" ->
  member (body req) "name" = Normal (VStr n) -> n <> "" ->
  member (body req) "role" = Normal role -> (role = VUndef \/ exists r, role = VStr r) ->
  (forall k u, In (k, u) (children ["users"] db) ->
               lookup_prop "email" (props_of u) <> Some (VStr e)) ->
  post_register env req db =
  (match jwt_sign (VObj [("userId", VStr (push_key env)); ("email", VStr e);
                         ("role", or_else role (VStr "user"))])
           (JWT_SECRET env) (clock env) with
   | Normal token =>
       res_json (VObj [("success", VBool true);
                       ("token", VStr token);
                       ("user", VObj [("id", VStr (push_key env)); ("email", VStr e);
                                      ("name", VStr n);
                                      ("role", or_else role (VStr "user"))])])
   | Throw message =>
       res_status_json 500 (VObj [("error", VStr "Registration failed");
                                  ("details", VStr message)])
   end,
   set_at ["users"; push_key env] (user_record env e p n role) db).
Proof.
  intros He Hne Hp Hnp Hn Hnn Hr Hrole Hnone.
  destruct (or_else_user_defined role Hrole) as [Hdef _].
  unfold post_register, try_catch, bind, lift, query, ret, write.
  rewrite He, Hp, Hn, Hr, !truthy_nonempty by assumption.
  cbn [negb orb]. rewrite ref_users. unfold equalTo_once.
  rewrite (matching_nil "email" e ["users"] db Hnone). cbn [snapshot_exists].
  unfold user_record. destruct (or_else_user_string role Hrole) as [r' ->].
  destruct (jwt_sign _ _ _); reflexivity.
Qed.

(** Registration then login (part_000): the credentials just registered log
    in, on any later day, with the key, email, name and role of the record;
    another password is answered 401. *)
Theorem register_then_login env env' req req' db e p n role p' :
  member (body req) "email" = Normal (VStr e) -> e <> "" ->
  member (body req) "password" = Normal (VStr p) -> p <> "" ->
  member (body req) "name" = Normal (VStr n) -> n <> "" ->
  member (body req) "role" = Normal role -> (role = VUndef \/ exists r, role = VStr r) ->
  (forall k u, In (k, u) (children ["users"] db) ->
               lookup_prop "email" (props_of u) <> Some (VStr e)) ->
  member (body req') "email" = Normal (VStr e) ->
  member (body req') "password" = Normal (VStr p') -> p' <> "" ->
  JWT_SECRET env' <> "" ->
  let db' := snd (post_register env req db) in
  let userId := VStr (push_key env) in
  let role' := or_else role (VStr "user") in
  post_login part_000 env' req' db' =
  (if String.eqb p p'
   then res_json
          (VObj [("success", VBool true);
                 ("token",
                  VStr (encode_token (issued_claims userId (VStr e) role' (clock env'))
                          (JWT_SECRET env')));
                 ("user", VObj [("id", userId); ("email", VStr e); ("name", VStr n);
                                ("role", role')])])
   else res_status_json 401 (VObj [("error", VStr "Invalid credentials")]),
   db').
Proof.
  intros He Hne Hp Hnp Hn Hnn Hr Hrole Hnone He' Hp' Hnp' Hsecret db' userId role'.
  subst db'. rewrite (post_register_fresh env req db e p n role) by assumption.
  cbn [snd].
  assert (matching "email" (VStr e) ["users"]
            (set_at ["users"; push_key env] (user_record env e p n role) db) =
          [(push_key env, user_record env e p n role)]) as Hm
    by (apply (matching_after_write "email" e ["users"]); [exact Hnone | reflexivity]).
  rewrite (login_part_000_found env' req' _ e p' _ _ [] He' Hne Hp' Hnp' Hm).
  cbn [field user_record props_of lookup_prop String.eqb Ascii.eqb Bool.eqb default
         from_option id strict_equal].
  destruct (String.eqb p p'); [| reflexivity].
  rewrite login_signed_token by exact Hsecret.
  reflexivity.
Qed.

(** A second registration with the same email is refused, and the store
    stays as the first left it. *)
Theorem register_twice_refused env env' req req' db e p n role password name :
  member (body req) "email" = Normal (VStr e) -> e <> "" ->
  member (body req) "password" = Normal (VStr p) -> p <> "" ->
  member (body req) "name" = Normal (VStr n) -> n <> "" ->
  member (body req) "role" = Normal role -> (role = VUndef \/ exists r, role = VStr r) ->
  (forall k u, In (k, u) (children ["users"] db) ->
               lookup_prop "email" (props_of u) <> Some (VStr e)) ->
  member (body req') "email" = Normal (VStr e) ->
  member (body req') "password" = Normal password -> truthy password = true ->
  member (body req') "name" = Normal name -> truthy name = true ->
  let db' := snd (post_register env req db) in
  post_register env' req' db' =
  (res_status_json 400 (VObj [("error", VStr "User already exists")]), db').
Proof.
  intros He Hne Hp Hnp Hn Hnn Hr Hrole Hnone He' Hp' Hpt Hn' Hnt db'.
  subst db'. rewrite (post_register_fresh env req db e p n role) by assumption.
  cbn [snd]. destruct (member_defined _ _ _ He') as [Hb1 Hb2].
  unfold post_register at 1, try_catch, bind, lift, query, ret.
  rewrite He', Hp', Hn', (member_object _ "role" Hb1 Hb2), (truthy_nonempty e Hne), Hpt, Hnt.
  cbn [negb orb]. rewrite ref_users. unfold equalTo_once.
  change (set_at ["users"; push_key env] (user_record env e p n role) db)
    with (set_at (["users"] ++ [push_key env]) (user_record env e p n role) db).
  rewrite (matching_after_write "email" e ["users"] (push_key env)
             (user_record env e p n role) db Hnone eq_refl).
  reflexivity.
Qed.

(** Registration writes before it signs.  With no signing secret the answer
    is 500, and the user record is in the store all the same. *)
Theorem register_unsigned_keeps_record env req db e p n role :
  JWT_SECRET env = "" ->
  member (body req) "email" = Normal (VStr e) -> e <> "" ->
  member (body req) "password" = Normal (VStr p) -> p <> "" ->
  member (body req) "name" = Normal (VStr n) -> n <> "" ->
  member (body req) "role" = Normal role -> (role = VUndef \/ exists r, role = VStr r) ->
  (forall k u, In (k, u) (children ["users"] db) ->
               lookup_prop "email" (props_of u) <> Some (VStr e)) ->
  post_register env req db =
    (res_status_json 500 (VObj [("error", VStr "Registration failed");
                                ("details", VStr "secretOrPrivateKey must have a value")]),
     set_at ["users"; push_key env] (user_record env e p n role) db)
  /\ lookup_at ["users"; push_key env] (snd (post_register env req db)) =
     Some (user_record env e p n role).
Proof.
  intros Hsecret He Hne Hp Hnp Hn Hnn Hr Hrole Hnone.
  rewrite (post_register_fresh env req db e p n role) by assumption.
  unfold jwt_sign. rewrite Hsecret. cbn [String.eqb snd].
  split; [reflexivity |]. apply (lookup_at_set_at_same ["users"; push_key env]).
Qed.

End RegisterLogin.

Lemma register_then_login_witness :
  let db' :=
    snd (post_register env_morning (json_request (registration "bo@x.com" "pw" "Bo"))
           one_user) in
  post_login part_000 env_evening (json_request (credentials "bo@x.com" "pw")) db' =
  (res_json
     (VObj [("success", VBool true);
            ("token",
             VStr (encode_token
                     (issued_claims (VStr "-Nk1") (VStr "bo@x.com") (VStr "user")
                        (clock env_evening)) "s3cret"));
            ("user", VObj [("id", VStr "-Nk1"); ("email", VStr "bo@x.com");
                           ("name", VStr "Bo"); ("role", VStr "user")])]),
   db').
Proof.
  apply (register_then_login env_morning env_evening
           (json_request (registration "bo@x.com" "pw" "Bo"))
           (json_request (credentials "bo@x.com" "pw"))
           one_user "bo@x.com" "pw" "Bo" VUndef "pw");
    try reflexivity; try discriminate.
  - now left.
  - intros k u [[= <- <-] | []]. discriminate.
Defined.

Lemma register_twice_refused_witness :
  let db' :=
    snd (post_register env_morning (json_request (registration "bo@x.com" "pw" "Bo"))
           one_user) in
  post_register env_evening (json_request (registration "bo@x.com" "other" "Bob")) db' =
  (res_status_json 400 (VObj [("error", VStr "User already exists")]), db').
Proof.
  apply (register_twice_refused env_morning env_evening
           (json_request (registration "bo@x.com" "pw" "Bo"))
           (json_request (registration "bo@x.com" "other" "Bob"))
           one_user "bo@x.com" "pw" "Bo" VUndef (VStr "other") (VStr "Bob"));
    try reflexivity; try discriminate.
  - now left.
  - intros k u [[= <- <-] | []]. discriminate.
Defined.

Lemma register_unsigned_keeps_record_witness :
  post_register env_no_secret (json_request (registration "bo@x.com" "pw" "Bo")) VNull =
  (res_status_json 500 (VObj [("error", VStr "Registration failed");
                              ("details", VStr "secretOrPrivateKey must have a value")]),
   VObj [("users",
          VObj [("-Nk1",
                 VObj [("email", VStr "bo@x.com"); ("password", VStr "pw");
                       ("name", VStr "Bo"); ("role", VStr "user");
                       ("createdAt", VStr "2026-11-03T06:42:07.045Z")])])]).
Proof.
  apply (register_unsigned_keeps_record env_no_secret
           (json_request (registration "bo@x.com" "pw" "Bo")) VNull
           "bo@x.com" "pw" "Bo" VUndef);
    try reflexivity; try discriminate.
  - now left.
  - intros k u [].
Defined.

(** ** Login and the gate *)

Section LoginGate.
Context `{Codec}.

(** Login, then a protected route (part_000): the token a login answers,
    sent as [Bearer <token>] under the same secret, passes the gate with the
    user's key, email and role attached for 24 hours from the login, and is
    answered 401 from then on. *)
Theorem login_token_opens_gate env env' req req' db e p k u more :
  member (body req) "email" = Normal (VStr e) -> e <> "" ->
  member (body req) "password" = Normal (VStr p) -> p <> "" ->
  matching "email" (VStr e) ["users"] db = (k, u) :: more ->
  field u "password" = VStr p ->
  JWT_SECRET env <> "" -> JWT_SECRET env' = JWT_SECRET env ->
  let token := login_token env (VStr k) u in
  authorization req' = Some ("Bearer " +:+ token) ->
  field (json (fst (post_login part_000 env req db))) "token" = VStr token
  /\ verifyToken part_000 env' req' =
     if clock env' <? clock env + expiresIn_24h
     then Next {| authorization := authorization req'; params := params req';
                  body := body req';
                  user := VObj (issued_claims (VStr k) (field u "email") (field u "role")
                                  (clock env)) |}
     else Answered (res_status_json 401 (VObj [("error", VStr "Invalid token")])).
Proof.
  intros He Hne Hp Hnp Hm Hpw Hsecret Hsame token Hh. split.
  - rewrite (login_part_000_found env req db e p k u more) by assumption.
    rewrite Hpw. cbn [strict_equal]. rewrite String.eqb_refl.
    now rewrite login_signed_token.
  - rewrite (verifyToken_part_000_bearer env' req' token Hh)
      by (apply encode_token_no_space || apply encode_token_nonempty).
    unfold token, login_token. rewrite Hsame.
    destruct (Z.ltb_spec (clock env') (clock env + expiresIn_24h)) as [Hfresh | Hold].
    + now rewrite jwt_verify_issued.
    + now rewrite jwt_verify_expired.
Qed.

End LoginGate.

Lemma login_token_opens_gate_witness :
  verifyToken part_000 env_evening (list_as_ana env_morning) =
  Next {| authorization := authorization (list_as_ana env_morning);
          params := VObj []; body := VObj [];
          user := VObj (issued_claims (VStr "-Nj0") (VStr "ana@x.com") (VStr "tech")
                          (clock env_morning)) |}.
Proof.
  exact (proj2 (login_token_opens_gate env_morning env_evening
                  (json_request (credentials "ana@x.com" "pw")) (list_as_ana env_morning)
                  one_user "ana@x.com" "pw" "-Nj0" ana []
                  eq_refl ltac:(discriminate) eq_refl ltac:(discriminate) eq_refl eq_refl
                  ltac:(discriminate) eq_refl eq_refl)).
Defined.

(** ** Login, when several users share the email *)

Section LoginSeveral.
Context `{Codec}.

(** With two stored users or more of the email asked for, index.js looks the
    user up under the comma-joined list of their keys, finds none, and
    answers 500; part_000 goes by the first of them. *)
Theorem login_index_api_several_users env req db e p k1 u1 k2 u2 more :
  member (body req) "email" = Normal (VStr e) -> e <> "" ->
  member (body req) "password" = Normal (VStr p) -> p <> "" ->
  matching "email" (VStr e) ["users"] db = (k1, u1) :: (k2, u2) :: more ->
  status (fst (post_login index_api env req db)) = 500%nat
  /\ field (json (fst (post_login index_api env req db))) "error" = VStr "Login failed"
  /\ snd (post_login index_api env req db) = db
  /\ post_login part_000 env req db =
     (if strict_equal (field u1 "password") (VStr p)
      then login_signed env (VStr k1) u1
      else res_status_json 401 (VObj [("error", VStr "Invalid credentials")]), db).
Proof.
  intros He Hne Hp Hnp Hm.
  assert (post_login index_api env req db =
          (res_status_json 500
             (VObj [("error", VStr "Login failed");
                    ("details",
                     VStr "Cannot read properties of undefined (reading 'password')")]),
           db)) as Heq.
  { unfold post_login, try_catch, bind, lift, query, ret.
    rewrite He, Hp, !truthy_nonempty by assumption. cbn [negb orb].
    rewrite ref_users. unfold equalTo_once. rewrite Hm.
    cbn [snapshot_exists negb snapshot_val default from_option id].
    unfold member_computed, Object_keys. cbn [own_props].
    rewrite <- (List.map_map fst VStr), ToString_strings.
    unfold member. cbn [own_props]. rewrite lookup_joined_keys. reflexivity. }
  rewrite Heq. cbn [fst snd status json res_status_json].
  repeat split.
  now apply login_part_000_found with (e := e) (more := (k2, u2) :: more).
Qed.

End LoginSeveral.

Lemma login_index_api_several_users_witness :
  status (fst (post_login index_api env_morning
                 (json_request (credentials "ana@x.com" "pw")) twins)) = 500%nat.
Proof.
  exact (proj1 (login_index_api_several_users env_morning
                  (json_request (credentials "ana@x.com" "pw")) twins
                  "ana@x.com" "pw" "-Nj0" ana "-Nj9" ana []
                  eq_refl ltac:(discriminate) eq_refl ltac:(discriminate) eq_refl)).
Defined.

(** ** What the routes write *)

Lemma reads_only_ret {A : Type} (a : A) : reads_only (ret a).
Proof. now intros db. Qed.

Lemma reads_only_lift {A : Type} (c : completion A) : reads_only (lift c).
Proof. now intros db. Qed.

Lemma reads_only_read {A : Type} (f : value -> A) : reads_only (read f).
Proof. now intros db. Qed.

Lemma reads_only_query {A : Type} (f : value -> completion A) : reads_only (query f).
Proof. now intros db. Qed.

Lemma reads_only_bind {A B : Type} (m : action A) (k : A -> action B) :
  reads_only m -> (forall a, reads_only (k a)) -> reads_only (bind m k).
Proof.
  intros Hm Hk db. unfold bind. specialize (Hm db).
  destruct (m db) as [[a | message] db']; cbn [snd] in *; subst db'; [apply Hk | reflexivity].
Qed.

Lemma try_catch_reads_only {A : Type} (block : action A) (handler : string -> A) db :
  reads_only block -> snd (try_catch block handler db) = db.
Proof.
  intros Hb. unfold try_catch. specialize (Hb db).
  now destruct (block db) as [[a | message] db'].
Qed.

Lemma writes_with_ret code res : writes_with code (ret res).
Proof. intros db. now right. Qed.

Lemma writes_with_bind {A : Type} code (m : action A) (k : A -> action response) :
  reads_only m -> (forall a, writes_with code (k a)) -> writes_with code (bind m k).
Proof.
  intros Hm Hk db. unfold bind. specialize (Hm db).
  destruct (m db) as [[a | message] db']; cbn [snd] in *; subst db'; [apply Hk | reflexivity].
Qed.

Lemma writes_with_write code (f : value -> completion value) res :
  status res = code -> writes_with code (bind (write f) (fun _ => ret res)).
Proof.
  intros Hres db. unfold bind, write, ret.
  destruct (f db); [now left | reflexivity].
Qed.

Lemma try_catch_writes_with code (block : action response) (handler : string -> response) db :
  writes_with code block ->
  status (fst (try_catch block handler db)) = code \/ snd (try_catch block handler db) = db.
Proof.
  intros Hb. unfold try_catch. specialize (Hb db).
  destruct (block db) as [[res | message] db']; [exact Hb | now right].
Qed.

Ltac solve_reads_only :=
  repeat first
    [ apply reads_only_ret | apply reads_only_lift
    | apply reads_only_read | apply reads_only_query
    | apply reads_only_bind; [| intros ?]
    | match goal with
      | |- reads_only (if ?b then _ else _) => destruct b
      | |- reads_only (let _ := _ in _) => cbv zeta
      end ].

Ltac solve_writes_with :=
  repeat first
    [ apply writes_with_ret
    | apply writes_with_write; reflexivity
    | apply writes_with_bind; [solve_reads_only | intros ?]
    | match goal with
      | |- writes_with _ (if ?b then _ else _) => destruct b
      | |- writes_with _ (let _ := _ in _) => cbv zeta
      end ].

Section Writes.
Context `{Codec}.

(** Login and the reading routes never write: whatever the request, and
    however they answer, the store is as it was. *)
Theorem reads_leave_store prog c env req db :
  snd (post_login prog env req db) = db
  /\ snd (get_employees env req db) = db
  /\ snd (get_attendance env req db) = db
  /\ snd (get_load c env req db) = db
  /\ snd (get_load_minimal env req db) = db.
Proof.
  repeat split; apply try_catch_reads_only; solve_reads_only.
Qed.

Lemma handler_writes_with prog route env req db :
  status (fst (handler prog route env req db)) = 200%nat
  \/ snd (handler prog route env req db) = db.
Proof.
  destruct route; cbn [handler];
    solve [ apply try_catch_writes_with; solve_writes_with
          | right; apply try_catch_reads_only; solve_reads_only ].
Qed.

(** A protected route has written only if it answers 200: an answer of
    401 or 500 leaves the store as it was. *)
Theorem protected_writes_only_on_200 prog route env req db :
  status (fst (protected prog route env req db)) = 200%nat
  \/ snd (protected prog route env req db) = db.
Proof.
  unfold protected. destruct (verifyToken prog env req) as [res | req'].
  - now right.
  - apply handler_writes_with.
Qed.

(** The same for the two save routes, with the status each answers on
    success. *)
Theorem save_writes_only_on_success env req db :
  (status (fst (post_save env req db)) = 200%nat \/ snd (post_save env req db) = db)
  /\ (status (fst (post_save_minimal env req db)) = 201%nat
      \/ snd (post_save_minimal env req db) = db).
Proof.
  split; apply try_catch_writes_with; solve_writes_with.
Qed.

End Writes.

(** ** The employee list *)

Lemma ref_employees refused : ref refused (VStr "employees") = Normal ["employees"].
Proof. reflexivity. Qed.

Lemma get_employees_list env req db :
  get_employees env req db =
  (res_json (VArr (List.map with_id (children ["employees"] db))), db).
Proof.
  unfold get_employees, try_catch, bind, lift, read, ret, once_value, children.
  rewrite ref_employees. destruct (lookup_at ["employees"] db); reflexivity.
Qed.

(** GET /api/employees answers one entry for each child of [employees].  The
    entry of a child has the child's own fields; its [id] is the child's key
    unless the stored record has an [id] of its own, which then is the one
    answered. *)
Theorem get_employees_entry env req db k props :
  In (k, VObj props) (children ["employees"] db) ->
  NoDup (List.map fst props) ->
  exists entry items,
    fst (get_employees env req db) = res_json (VArr items)
    /\ length items = length (children ["employees"] db)
    /\ In (VObj entry) items
    /\ lookup_prop "id" entry = Some (default (VStr k) (lookup_prop "id" props))
    /\ forall f, f <> "id" -> lookup_prop f entry = lookup_prop f props.
Proof.
  intros Hin Hnd.
  exists (spread [("id", VStr k)] props), (List.map with_id (children ["employees"] db)).
  rewrite get_employees_list. cbn [fst]. split; [reflexivity |].
  split; [apply List.length_map |].
  split; [apply (List.in_map with_id _ _ Hin) |].
  split.
  - rewrite lookup_spread by exact Hnd. now destruct (lookup_prop "id" props).
  - intros f Hf. rewrite lookup_spread by exact Hnd.
    destruct (lookup_prop f props); [reflexivity |].
    cbn [lookup_prop]. apply String.eqb_neq in Hf. now rewrite Hf.
Qed.

(** POST /api/employees checks nothing itself, and the store refuses
    [undefined]: a body without one of name, email, role and department is
    answered 500, and nothing is written. *)
Theorem post_employees_requires_all_fields env req db name email role department :
  member (body req) "name" = Normal name ->
  member (body req) "email" = Normal email ->
  member (body req) "role" = Normal role ->
  member (body req) "department" = Normal department ->
  name = VUndef \/ email = VUndef \/ role = VUndef \/ department = VUndef ->
  post_employees env req db =
  (res_status_json 500 (VObj [("error", VStr "Failed to create employee")]), db).
Proof.
  intros Hn He Hr Hd Hmissing.
  unfold post_employees, try_catch, bind, lift, ret, write.
  rewrite Hn, He, Hr, Hd, ref_employees. unfold ref_set.
  assert (has_undefined (VObj [("name", name); ("email", email); ("role", role);
                               ("department", department);
                               ("createdAt", VStr (toISOString (now env)))]) = true) as ->.
  { cbn [has_undefined existsb snd].
    destruct Hmissing as [-> | [-> | [-> | ->]]]; cbn [has_undefined];
      rewrite ?orb_true_r; reflexivity. }
  reflexivity.
Qed.



(** DELETE /api/employees/:id, for an id that is a plain key, removes the
    employee of that key: nothing is left there, the other employees and the
    other collections are as before. *)
Theorem delete_employee_removes env req db id :
  member (params req) "id" = Normal (VStr id) ->
  plain_key id = true ->
  let db' := snd (delete_employee env req db) in
  fst (delete_employee env req db) =
    res_json (VObj [("success", VBool true); ("message", VStr "Employee deleted")])
  /\ lookup_at ["employees"; id] db' = None
  /\ (forall k q, k <> id ->
        lookup_at ("employees" :: k :: q) db' = lookup_at ("employees" :: k :: q) db)
  /\ (forall c q, c <> "employees" -> lookup_at (c :: q) db' = lookup_at (c :: q) db).
Proof.
  intros Hid Hkey db'.
  assert (delete_employee env req db =
          (res_json (VObj [("success", VBool true); ("message", VStr "Employee deleted")]),
           remove_at ["employees"; id] db)) as Heq.
  { unfold delete_employee, try_catch, bind, lift, ret, write, ref_remove.
    rewrite Hid. cbn [ToString]. now rewrite (ref_employees_id _ id (plain_key_valid id Hkey)). }
  subst db'. rewrite Heq. cbn [fst snd].
  split; [reflexivity |].
  split; [now apply lookup_at_remove_at_same |].
  split.
  - intros k q Hne. apply (lookup_at_remove_at_apart ["employees"] k id q []). exact Hne.
  - intros c q Hne. apply (lookup_at_remove_at_apart [] c "employees" q [id]). exact Hne.
Qed.

Lemma get_employees_entry_witness :
  exists entry items,
    fst (get_employees env_morning (json_request VNull) own_id_store) = res_json (VArr items)
    /\ length items = 1%nat
    /\ In (VObj entry) items
    /\ lookup_prop "id" entry = Some (VNum 7)
    /\ forall f, f <> "id" ->
         lookup_prop f entry = lookup_prop f [("id", VNum 7); ("name", VStr "Cy")].
Proof.
  apply (get_employees_entry env_morning (json_request VNull) own_id_store "-Ne9"
           [("id", VNum 7); ("name", VStr "Cy")]).
  - now left.
  - exact (bool_decide_unpack (NoDup ["id"; "name"]) I).
Defined.

Lemma post_employees_requires_all_fields_witness :
  post_employees env_morning
    (json_request (VObj [("name", VStr "Cy"); ("email", VStr "cy@x.com")])) one_user =
  (res_status_json 500 (VObj [("error", VStr "Failed to create employee")]), one_user).
Proof.
  apply (post_employees_requires_all_fields env_morning _ one_user
           (VStr "Cy") (VStr "cy@x.com") VUndef VUndef); try reflexivity.
  right. right. now left.
Defined.


Lemma delete_employee_removes_witness :
  let db' := snd (delete_employee env_morning (employee_request "-Ne7" (VObj [])) one_user) in
  lookup_at ["employees"; "-Ne7"] db' = None
  /\ lookup_at ["users"; "-Nj0"] db' = Some ana.
Proof.
  destruct (delete_employee_removes env_morning (employee_request "-Ne7" (VObj []))
              one_user "-Ne7" eq_refl eq_refl) as (_ & Hgone & _ & Hothers).
  split; [exact Hgone |].
  exact (eq_trans (Hothers "users" ["-Nj0"] ltac:(discriminate)) eq_refl).
Defined.

(** ** Attendance, read back *)

Lemma get_attendance_list env req db id :
  member (params req) "employeeId" = Normal (VStr id) ->
  valid_key id = true ->
  get_attendance env req db =
  (res_json (VArr (List.map with_id (children ["attendance"; id] db))), db).
Proof.
  intros Hid Hkey.
  unfold get_attendance, try_catch, bind, lift, read, ret, once_value, children.
  rewrite Hid. cbn [ToString].
  rewrite (ref_under _ "attendance" id eq_refl eq_refl (valid_key_path id Hkey)
           : ref _ (VStr ("attendance/" +:+ id)) = _).
  rewrite (path_segments_key id Hkey).
  destruct (lookup_at ["attendance"; id] db); reflexivity.
Qed.

(** A login filed, then the employee's attendance read (part_000), for an
    employee whose id is a plain key: the list has the day's entry, its [id]
    the calendar date, with the login time and the status. *)
Theorem attendance_login_then_get env env' req req' db id :
  member (body req) "employeeId" = Normal (VStr id) ->
  member (params req') "employeeId" = Normal (VStr id) ->
  plain_key id = true ->
  let db' := snd (post_attendance_login part_000 env req db) in
  exists items,
    get_attendance env' req' db' = (res_json (VArr items), db')
    /\ In (VObj [("id", VStr (iso_date (now env)));
                 ("loginTime", VStr (toISOString (now env)));
                 ("status", VStr "present")]) items.
Proof.
  intros Hid Hid' Hkey db'. subst db'. apply plain_key_valid in Hkey.
  rewrite (attendance_login_part_000 env req db id Hid Hkey). cbn [snd].
  eexists. split; [apply (get_attendance_list env' req' _ id Hid' Hkey) |].
  change ["attendance"; id; iso_date (now env)]
    with (["attendance"; id] ++ [iso_date (now env)])%list.
  rewrite children_set_at_child.
  apply (List.in_map with_id _ (iso_date (now env), attendance_record (now env))).
  apply In_set_prop.
Qed.

(** ** Save and load *)







Lemma attendance_login_then_get_witness :
  let db' :=
    snd (post_attendance_login part_000 env_morning
           (json_request (VObj [("employeeId", VStr "e1")])) VNull) in
  exists items,
    get_attendance env_evening (attendance_request "e1") db' = (res_json (VArr items), db')
    /\ In (VObj [("id", VStr "2026-11-03");
                 ("loginTime", VStr "2026-11-03T06:42:07.045Z");
                 ("status", VStr "present")]) items.
Proof.
  apply (attendance_login_then_get env_morning env_evening
           (json_request (VObj [("employeeId", VStr "e1")])) (attendance_request "e1")
           VNull "e1"); reflexivity.
Defined.



(** ** Start-up *)

(** The allowed origins are the pieces of CORS_ORIGIN between its commas:
    none of them has a comma, there is always one at least, and joined by
    commas they give the variable back.  The default is taken only when the
    variable is not set. *)
Theorem cors_origin_pieces e :
  match CORS_ORIGIN e with
  | None => cors_origin e = VArr [VStr "http://localhost:3000"]
  | Some s =>
      exists pieces,
        cors_origin e = VArr (List.map VStr pieces)
        /\ pieces <> []
        /\ Forall (fun piece => has_char "," piece = false) pieces
        /\ String.concat "," pieces = s
  end.
Proof.
  unfold cors_origin. destruct (CORS_ORIGIN e) as [s |]; [| reflexivity].
  exists (split "," s). cbn [or_else truthy]. unfold split_value.
  split; [reflexivity |].
  split; [destruct (split_cons "," s) as (piece & pieces & ->); discriminate |].
  split; [apply split_pieces_without |].
  apply (concat_split ","%char).
Qed.





